(** * wedx-chat-completion backend: session pool, chat streaming, settings resolver

    A shallow embedding of
    - [backend/kernel_manager.py] (per-user kernel pool),
    - [backend/semantic_kernel_setup.py] (result normalisation, streaming),
    - [backend/features/data_management/routers/settings.py] together with
      [shared/models/models.py] and [schemas/settings.py] (settings resolver,
      creation and deletion of settings),
    - [backend/ai_service.py] and [backend/features/ai/routers/chat.py]
      (the callers of the pool and of the stream),
    - [backend/shared/utils/common.py] (the ids of a principal) and
      [backend/plugin_manager.py] (the shared plugins),
    and the properties of these that the specification states, followed by
    further properties read off the code. *)

From stdpp Require Import gmap strings list fin_maps.
From Stdlib Require Import ZArith Lia Ascii String.

Local Open Scope string_scope.
Set Warnings "-clear-no-such-hyp".

(** ** Python strings

    A Python [str] is modelled by [string]; every [ascii] stands for the code
    point of the same number, so the model covers the strings whose code
    points are below 256. *)
Module PyStr.

Definition code (a : ascii) : nat := nat_of_ascii a.

(** [str.isspace] on one character: TAB..CR, FS..US, SPACE, NEL, NBSP. *)
Definition isspace (a : ascii) : bool :=
  let n := code a in
  (((9 <=? n) && (n <=? 13)) || ((28 <=? n) && (n <=? 31))
   || (n =? 32) || (n =? 133) || (n =? 160))%nat.

Fixpoint lstrip (s : string) : string :=
  match s with
  | EmptyString => EmptyString
  | String a s' => if isspace a then lstrip s' else s
  end.

Fixpoint rstrip (s : string) : string :=
  match s with
  | EmptyString => EmptyString
  | String a s' =>
      match rstrip s' with
      | EmptyString => if isspace a then EmptyString else String a EmptyString
      | r => String a r
      end
  end.

(** [s.strip()] *)
Definition strip (s : string) : string := rstrip (lstrip s).

(** [str.lower] on one character: A..Z and the Latin-1 capitals. *)
Definition lower_char (a : ascii) : ascii :=
  let n := code a in
  if (((65 <=? n) && (n <=? 90))
      || ((192 <=? n) && (n <=? 222) && negb (n =? 215)))%nat
  then ascii_of_nat (n + 32) else a.

Fixpoint lower (s : string) : string :=
  match s with
  | EmptyString => EmptyString
  | String a s' => String (lower_char a) (lower s')
  end.

Fixpoint startswith (p s : string) : bool :=
  match p, s with
  | EmptyString, _ => true
  | String _ _, EmptyString => false
  | String a p', String b s' => if Ascii.eqb a b then startswith p' s' else false
  end.

(** [needle in hay] *)
Fixpoint contains (needle hay : string) : bool :=
  startswith needle hay
  || match hay with
     | EmptyString => false
     | String _ hay' => contains needle hay'
     end.

End PyStr.

(** ** Python exceptions

    The classes the code distinguishes, and representatives of the other
    branches of the built-in hierarchy. *)
Module PyExc.

Inductive exc_class :=
| BaseException | Exception
| KeyboardInterrupt | SystemExit | GeneratorExit | CancelledError
| RuntimeError | NotImplementedError | RecursionError
| OSError | ConnectionError | BrokenPipeError | ConnectionAbortedError
| ConnectionRefusedError | ConnectionResetError | TimeoutError
| ValueError | TypeError | KeyError | ValidationError.

#[global] Instance exc_class_eq_dec : EqDecision exc_class.
Proof. solve_decision. Defined.

(** The direct base class. *)
Definition base (c : exc_class) : option exc_class :=
  match c with
  | BaseException => None
  | Exception | KeyboardInterrupt | SystemExit | GeneratorExit
  | CancelledError => Some BaseException
  | RuntimeError | OSError | ValueError | TypeError | KeyError => Some Exception
  | NotImplementedError | RecursionError => Some RuntimeError
  | ConnectionError | TimeoutError => Some OSError
  | BrokenPipeError | ConnectionAbortedError | ConnectionRefusedError
  | ConnectionResetError => Some ConnectionError
  | ValidationError => Some ValueError
  end.

Fixpoint issubclass_upto (fuel : nat) (c d : exc_class) : bool :=
  bool_decide (c = d)
  || match fuel with
     | O => false
     | S fuel' =>
         match base c with
         | Some b => issubclass_upto fuel' b d
         | None => false
         end
     end.

(** The hierarchy above is four levels deep. *)
Definition issubclass (c d : exc_class) : bool := issubclass_upto 4 c d.

(** A raised exception: its class and the text [str(e)]. *)
Record exn := Exn { exc_type : exc_class; exc_str : string }.

Definition isinstance (e : exn) (c : exc_class) : bool :=
  issubclass (exc_type e) c.

End PyExc.

(** ** kernel_manager.py *)
Module KernelManager.
Import PyExc.

(** A Python object reference; [UserKernel] instances are compared by it. *)
Definition ref := nat.

(** The fields of [UserKernel].  The wrapped [SemanticKernelManager] keeps
    no state of its own that the pool reads; its [cleanup] only logs. *)
Record UserKernel := {
  uuid : string;
  user_id : string;
  tenant_id : string;
  created_at : Z;
  last_accessed : Z;
  access_count : Z;
  is_active : bool
}.

(** What one call reads from outside: [uuid.uuid4()] and the three
    [datetime.utcnow()] readings of [__init__] and [update_access]. *)
Record ambient := {
  uuid4 : string;
  utcnow_created : Z;
  utcnow_first : Z;
  utcnow_access : Z
}.

(** [UserKernel.__init__] *)
Definition UserKernel_init (amb : ambient) (user_id tenant_id : string) : UserKernel :=
  {| uuid := uuid4 amb; user_id := user_id; tenant_id := tenant_id;
     created_at := utcnow_created amb; last_accessed := utcnow_first amb;
     access_count := 0; is_active := true |}.

(** [UserKernel.cleanup] *)
Definition cleanup (k : UserKernel) : UserKernel :=
  if is_active k then
    {| uuid := uuid k; user_id := user_id k; tenant_id := tenant_id k;
       created_at := created_at k; last_accessed := last_accessed k;
       access_count := access_count k; is_active := false |}
  else k.

(** [UserKernel.update_access] *)
Definition update_access (now : Z) (k : UserKernel) : UserKernel :=
  {| uuid := uuid k; user_id := user_id k; tenant_id := tenant_id k;
     created_at := created_at k; last_accessed := now;
     access_count := (access_count k + 1)%Z; is_active := is_active k |}.

(** The manager and the objects it refers to: [objs] is the store of
    [UserKernel] objects ever constructed, [kernels] the dict
    [self._kernels] from normalised user id to object, [next_ref] the next
    unused reference. *)
Record state := {
  objs : gmap ref UserKernel;
  kernels : gmap string ref;
  next_ref : ref;
  max_idle_time : Z
}.

(** [KernelManager.__init__] *)
Definition init (max_idle : Z) : state :=
  {| objs := ∅; kernels := ∅; next_ref := 0; max_idle_time := max_idle |}.

Definition set_objs (f : gmap ref UserKernel → gmap ref UserKernel) (s : state) : state :=
  {| objs := f (objs s); kernels := kernels s; next_ref := next_ref s;
     max_idle_time := max_idle_time s |}.

(** [await kernel.cleanup(); del self._kernels[key]] *)
Definition evict (s : state) (entry : string * ref) : state :=
  {| objs := alter cleanup entry.2 (objs s);
     kernels := delete entry.1 (kernels s);
     next_ref := next_ref s; max_idle_time := max_idle_time s |}.

(** [get_kernel] up to its [yield]: the value yielded and the new state. *)
Definition get_kernel_enter (uid tid : string) (amb : ambient) (s : state)
  : state * ref :=
  let normalized_user_id := PyStr.strip uid in
  let '(s1, kernel) :=
    match kernels s !! normalized_user_id with
    | None =>
        let r := next_ref s in
        ({| objs := <[r := UserKernel_init amb normalized_user_id tid]> (objs s);
            kernels := <[normalized_user_id := r]> (kernels s);
            next_ref := S r; max_idle_time := max_idle_time s |}, r)
    | Some r => (s, r)
    end in
  (set_objs (alter (update_access (utcnow_access amb)) kernel) s1, kernel).

(** The test [isinstance(e, RuntimeError | ConnectionError)]. *)
Definition connection_fatal (e : exn) : bool :=
  isinstance e RuntimeError || isinstance e ConnectionError.

(** The [except Exception] handler of [get_kernel]; it always re-raises. *)
Definition get_kernel_except (uid : string) (e : exn) (s : state) : state :=
  let normalized_user_id := PyStr.strip uid in
  if isinstance e Exception then
    if connection_fatal e then
      match kernels s !! normalized_user_id with
      | Some r => evict s (normalized_user_id, r)
      | None => s
      end
    else s
  else s.

(** [async with get_kernel(uid, tid) as k: body(k)].  The body runs on the
    state left by the entry and ends with a value or a raised exception. *)
Definition get_kernel {A} (uid tid : string) (amb : ambient)
    (body : ref → state → state * (A + exn)) (s : state) : state * (A + exn) :=
  let '(s1, kernel) := get_kernel_enter uid tid amb s in
  match body kernel s1 with
  | (s2, inl a) => (s2, inl a)
  | (s2, inr e) => (get_kernel_except uid e s2, inr e)
  end.

(** [remove_kernel] *)
Definition remove_kernel (uid : string) (s : state) : state :=
  let normalized_user_id := PyStr.strip uid in
  match kernels s !! normalized_user_id with
  | Some r => evict s (normalized_user_id, r)
  | None => s
  end.

(** The first loop of [_cleanup_idle_kernels]. *)
Definition idle (now : Z) (s : state) (entry : string * ref) : Prop :=
  match objs s !! entry.2 with
  | Some k => (max_idle_time s < now - last_accessed k)%Z
  | None => False
  end.

#[global] Instance idle_dec now s entry : Decision (idle now s entry).
Proof. unfold idle. destruct (objs s !! entry.2); apply _. Defined.

Definition idle_kernels (now : Z) (s : state) : list (string * ref) :=
  filter (idle now s) (map_to_list (kernels s)).

(** [_cleanup_idle_kernels] *)
Definition _cleanup_idle_kernels (now : Z) (s : state) : state :=
  foldl evict s (idle_kernels now s).

(** [stop]: every kernel is cleaned up, then the dict is cleared. *)
Definition stop (s : state) : state :=
  {| objs := foldl (λ o entry, alter cleanup entry.2 o) (objs s)
                   (map_to_list (kernels s));
     kernels := ∅; next_ref := next_ref s; max_idle_time := max_idle_time s |}.

(** One call on the manager, as seen from the event loop. *)
Inductive op :=
| Acquire (uid tid : string) (amb : ambient)
| Raised (uid : string) (e : exn)
| Remove (uid : string)
| Sweep (now : Z)
| Stop.

Definition exec (s : state) (o : op) : state :=
  match o with
  | Acquire uid tid amb => (get_kernel_enter uid tid amb s).1
  | Raised uid e => get_kernel_except uid e s
  | Remove uid => remove_kernel uid s
  | Sweep now => _cleanup_idle_kernels now s
  | Stop => stop s
  end.

Definition run (ops : list op) (s : state) : state := foldl exec s ops.

(** Whether a call may take the session of key [k] out of the dict. *)
Definition evicts (k : string) (o : op) : bool :=
  match o with
  | Acquire _ _ _ => false
  | Raised uid e => connection_fatal e && bool_decide (PyStr.strip uid = k)
  | Remove uid => bool_decide (PyStr.strip uid = k)
  | Sweep _ | Stop => true
  end.

End KernelManager.


(** ** Python values

    The values that reach [serialize_function_result], a settings payload or
    a tool invocation.  [PObject] is any object other than the ones above it:
    the name of its type, its attributes [text], [content] and [value]
    ([None]: the object has no such attribute) and the text [str] returns
    for it ([None]: [str] raises). *)
Module PyVal.

#[warnings="-register-all"]
Inductive pyval :=
| PNone
| PBool (b : bool)
| PInt (z : Z)
| PFloat (bits : Z)
| PStr (s : string)
| PList (items : list pyval)
| PDict (entries : list (pyval * pyval))
| PTextContent (text : string)
| PObject (type_name : string) (text content value : option pyval)
          (to_str : option string).

(** [v is None] *)
Definition is_None (v : pyval) : bool :=
  match v with PNone => true | _ => false end.

(** The values [json.dumps] accepts as a key of an object. *)
Definition json_key (v : pyval) : bool :=
  match v with
  | PNone | PBool _ | PInt _ | PFloat _ | PStr _ => true
  | _ => false
  end.

(** The values [json.dumps] encodes without a [default] hook. *)
Fixpoint json_encodable (v : pyval) : bool :=
  match v with
  | PNone | PBool _ | PInt _ | PFloat _ | PStr _ => true
  | PList items => forallb json_encodable items
  | PDict entries =>
      forallb (λ '(k, x), json_key k && json_encodable x) entries
  | PTextContent _ | PObject _ _ _ _ _ => false
  end.

End PyVal.

(** ** semantic_kernel_setup.py *)
Module SemanticKernel.
Import PyExc PyVal.

(** [serialize_function_result] *)
Fixpoint serialize_function_result (result : pyval) : pyval :=
  match result with
  | PNone => PNone
  | PTextContent text => PStr text
  | PList items => PList (map serialize_function_result items)
  | PDict entries =>
      PDict (map (λ '(key, value), (key, serialize_function_result value)) entries)
  | PObject type_name text content value to_str =>
      match text with
      | Some t => t
      | None =>
          match content with
          | Some c => serialize_function_result c
          | None =>
              match value with
              | Some v => serialize_function_result v
              | None =>
                  match to_str with
                  | Some s => PStr s
                  | None => PStr ("<Unserializable " ++ type_name ++ ">")
                  end
              end
          end
      end
  | PBool _ | PInt _ | PFloat _ | PStr _ => result
  end.

(** An element of [stream_message.items] or a value of one of the direct
    attributes, as the attribute probes see it; [None] is "no such
    attribute", [Some PNone] an attribute that holds [None]. *)
Record call_object := {
  type_name : string;
  function_name : option string;
  name : option string;
  arguments : option pyval;
  parameters : option pyval;
  result : option pyval;
  value : option pyval
}.

(** What a direct attribute of the stream message holds. *)
Inductive attr_value :=
| AttrNone
| AttrList (calls : list call_object)
| AttrObject (call : call_object).

(** One partial result of the provider. *)
Record stream_message := {
  finish_reason : option string;
  content : option string;
  items : option (list call_object);
  attr_function_calls : option attr_value;
  attr_tool_calls : option attr_value;
  attr_function_call : option attr_value;
  attr_function_results : option attr_value
}.

(** An entry of [function_calls]. *)
Record function_call := {
  fc_name : string;
  fc_arguments : pyval;
  fc_result : pyval
}.

(** The dict the generator yields. *)
Record chunk := {
  chunk_content : string;
  chunk_function_calls : list function_call;
  chunk_finish_reason : option string;
  chunk_role : string
}.

(** [getattr(o, a, d)] *)
Definition getattr {A} (a : option A) (d : A) : A := default d a.

(** The loop over [stream_message.items]. *)
Definition item_calls (item : call_object) : list function_call :=
  let item_type_name := type_name item in
  if PyStr.contains "FunctionCall" item_type_name
     || PyStr.contains "ToolCall" item_type_name then
    let r := getattr (result item) PNone in
    if negb (is_None r) then
      [ {| fc_name := getattr (function_name item) (getattr (name item) "unknown");
           fc_arguments := getattr (arguments item) (getattr (parameters item) (PDict []));
           fc_result := serialize_function_result r |} ]
    else []
  else if PyStr.contains "FunctionResult" item_type_name then
    match function_name item with
    | Some fn =>
        [ {| fc_name := fn;
             fc_arguments := getattr (arguments item) (PDict []);
             fc_result := serialize_function_result
                            (getattr (value item) (getattr (result item) PNone)) |} ]
    | None => []
    end
  else [].

(** One object found under a direct attribute. *)
Definition attr_call (func_call : call_object) : list function_call :=
  let r := getattr (result func_call) (getattr (value func_call) PNone) in
  if negb (is_None r) then
    [ {| fc_name := getattr (name func_call) (getattr (function_name func_call) "unknown");
         fc_arguments := getattr (arguments func_call)
                                 (getattr (parameters func_call) (PDict []));
         fc_result := serialize_function_result r |} ]
  else [].

(** The body of the loop over the four direct attributes. *)
Definition attr_calls (a : option attr_value) : list function_call :=
  match a with
  | None | Some AttrNone | Some (AttrList []) => []
  | Some (AttrList calls) => flat_map attr_call calls
  | Some (AttrObject call) => attr_call call
  end.

(** [function_calls] as collected from one stream message. *)
Definition collect_function_calls (m : stream_message) : list function_call :=
  match items m with
  | Some its => flat_map item_calls its
  | None => []
  end
  ++ attr_calls (attr_function_calls m)
  ++ attr_calls (attr_tool_calls m)
  ++ attr_calls (attr_function_call m)
  ++ attr_calls (attr_function_results m).

Section Streaming.

(** The text Python's string formatting gives for an [arguments] object. *)
Variable format_arguments : pyval → string.

(** [call_id] *)
Definition call_id (fc : function_call) : string :=
  fc_name fc ++ "-" ++ format_arguments (fc_arguments fc).

(** The duplicate filter; [sent] is [sent_function_calls]. *)
Fixpoint unique_function_calls (sent : gset string) (calls : list function_call)
  : list function_call * gset string :=
  match calls with
  | [] => ([], sent)
  | fc :: rest =>
      if decide (call_id fc ∈ sent) then unique_function_calls sent rest
      else
        let '(u, sent') := unique_function_calls ({[call_id fc]} ∪ sent) rest in
        (fc :: u, sent')
  end.

(** The body of the [async for] for one element of the provider's stream. *)
Definition on_message (sent : gset string) (sm : option stream_message)
  : list chunk * gset string :=
  match sm with
  | None => ([], sent)
  | Some m =>
      let is_tool_call_message := bool_decide (finish_reason m = Some "tool_calls") in
      let '(unique, sent') := unique_function_calls sent (collect_function_calls m) in
      let fr :=
        if is_tool_call_message && negb (bool_decide (unique = []))
        then Some "tool_calls" else finish_reason m in
      let has_content :=
        match content m with Some c => negb (bool_decide (c = "")) | None => false end in
      if has_content || negb (bool_decide (unique = [])) then
        ([ {| chunk_content := getattr (content m) "";
              chunk_function_calls := unique;
              chunk_finish_reason := fr;
              chunk_role := "assistant" |} ], sent')
      else ([], sent')
  end.

(** The [async for] over the elements the provider yields. *)
Fixpoint stream_loop (sent : gset string) (partials : list (option stream_message))
  : list chunk :=
  match partials with
  | [] => []
  | sm :: rest =>
      let '(out, sent') := on_message sent sm in
      (out ++ stream_loop sent' rest)%list
  end.

(** What the provider does in one turn, for the chat history and settings
    built at the head of the [try] block: the elements it yields and, when
    it fails, the exception raised after them.  An exception raised while
    the history or the settings are built is a run without elements. *)
Record provider_run := {
  partials : list (option stream_message);
  failure : option exn
}.

(** The chunk yielded by the [except Exception] handler. *)
Definition error_chunk (e : exn) : chunk :=
  let error_message := exc_str e in
  if PyStr.contains "content" (PyStr.lower error_message)
     && (PyStr.contains "filter" (PyStr.lower error_message)
         || PyStr.contains "policy" (PyStr.lower error_message)) then
    {| chunk_content :=
         "This message has been blocked by the content filter. Please try again with different wording.";
       chunk_function_calls := [];
       chunk_finish_reason := Some "content_filter";
       chunk_role := "assistant" |}
  else
    {| chunk_content := "Error: " ++ exc_str e;
       chunk_function_calls := [];
       chunk_finish_reason := Some "error";
       chunk_role := "assistant" |}.

(** [chat_completion_streaming]: the chunks the generator yields, in order,
    and the exception that leaves the generator, if any. *)
Definition chat_completion_streaming (run : provider_run) : list chunk * option exn :=
  let yielded := stream_loop ∅ (partials run) in
  match failure run with
  | None => (yielded, None)
  | Some e =>
      if isinstance e Exception then ((yielded ++ [error_chunk e])%list, None)
      else (yielded, Some e)
  end.

End Streaming.

End SemanticKernel.


(** ** shared/models/models.py, schemas/settings.py, routers/settings.py *)
Module Settings.
Import PyExc PyVal.

(** The columns of [SettingsV4] the resolver reads; a UUID is kept in its
    text form. *)
Record SettingsV4 := {
  id : string;
  key : string;
  payload : pyval;
  is_secret : bool;
  organization_id : option string;
  domain_id : option string;
  environment_id : option string;
  audience_id : option string;
  is_active : bool;
  updated_at : Z
}.

(** [CASE WHEN col IS NOT NULL THEN w ELSE 0 END] *)
Definition case_not_null (col : option string) (w : Z) : Z :=
  match col with Some _ => w | None => 0 end.

(** The generated column [specificity]. *)
Definition specificity (r : SettingsV4) : Z :=
  (case_not_null (organization_id r) 2
   + case_not_null (domain_id r) 3
   + case_not_null (environment_id r) 1
   + case_not_null (audience_id r) 10)%Z.

Record UserV4 := {
  user_oid : string;
  user_organization_id : option string;
  user_domain_id : option string;
  user_environment_id : option string
}.

Record AudienceV4 := {
  aud_id : string;
  aud_code : string;
  aud_is_active : bool
}.

Record SettingsResolveRequest := {
  req_key : string;
  req_audience_key : string;
  req_oid : option string
}.

Record SettingsResolveResponse := {
  resp_key : string;
  resolved_payload : pyval;
  resolved_from : string;
  resp_specificity : Z;
  found : bool
}.

(** The field type [dict | list | str | int | float | bool] of
    [resolved_payload]. *)
Definition payload_type (v : pyval) : bool :=
  match v with
  | PDict _ | PList _ | PStr _ | PInt _ | PFloat _ | PBool _ => true
  | PNone | PTextContent _ | PObject _ _ _ _ _ => false
  end.

(** The constructor of the pydantic model: the fields are validated. *)
Definition SettingsResolveResponse_init (k : string) (p : pyval) (from : string)
    (spec : Z) (fnd : bool) : SettingsResolveResponse + exn :=
  if payload_type p then
    inl {| resp_key := k; resolved_payload := p; resolved_from := from;
           resp_specificity := spec; found := fnd |}
  else inr (Exn ValidationError
                "1 validation error for SettingsResolveResponse: resolved_payload").

(** The rows of the three tables, and for each of the three queries the
    exception [db.execute] raises for it, if it raises. *)
Record database := {
  users : list UserV4;
  audiences : list AudienceV4;
  settings : list SettingsV4;
  user_query_error : option exn;
  audience_query_error : option exn;
  settings_query_error : option exn
}.

Inductive level := WARNING | ERROR.

(** The arguments [action, resource, resource_id, details] of
    [create_audit_log]. *)
Record audit_entry := {
  audit_action : string;
  audit_resource : string;
  audit_resource_id : string;
  audit_details : string
}.

(** What a handler has logged and audited so far. *)
Record effects := {
  logged : list (level * string);
  audited : list audit_entry
}.

(** Code that logs, audits, and returns or raises. *)
Definition M (A : Type) : Type := effects → effects * (A + exn).

Definition ret {A} (a : A) : M A := λ fx, (fx, inl a).

Definition raise {A} (e : exn) : M A := λ fx, (fx, inr e).

Definition bind {A B} (m : M A) (k : A → M B) : M B :=
  λ fx, match m fx with
        | (fx', inl a) => k a fx'
        | (fx', inr e) => (fx', inr e)
        end.

Notation "x <- m ;; k" := (bind m (λ x, k))
  (at level 62, m at next level, right associativity).
Notation "m ;;; k" := (bind m (λ _, k))
  (at level 62, right associativity).

(** [try: m except Exception as e: handler(e)] *)
Definition try_except {A} (m : M A) (handler : exn → M A) : M A :=
  λ fx, match m fx with
        | (fx', inl a) => (fx', inl a)
        | (fx', inr e) => if isinstance e Exception then handler e fx' else (fx', inr e)
        end.

Definition log (l : level) (msg : string) : M unit :=
  λ fx, ({| logged := (logged fx ++ [(l, msg)])%list; audited := audited fx |}, inl tt).

(** [create_audit_log]; a failure inside it is logged there and not raised. *)
Definition create_audit_log (action resource resource_id details : string) : M unit :=
  λ fx, ({| logged := logged fx;
            audited := (audited fx ++ [ {| audit_action := action;
                                           audit_resource := resource;
                                           audit_resource_id := resource_id;
                                           audit_details := details |} ])%list |},
         inl tt).

(** [db.execute(q)] for a query whose rows are [rows]. *)
Definition execute {A} (error : option exn) (rows : list A) : M (list A) :=
  match error with
  | Some e => raise e
  | None => ret rows
  end.

(** [or_(col.is_(None), col == caller)] *)
Definition scope_matches (col caller : option string) : bool :=
  match col with
  | None => true
  | Some c => bool_decide (caller = Some c)
  end.

(** The [filter] of the resolve query. *)
Definition candidate (k : string) (org dom env aud : option string) (r : SettingsV4) : bool :=
  bool_decide (key r = k) && is_active r && negb (is_secret r)
  && scope_matches (organization_id r) org
  && scope_matches (domain_id r) dom
  && scope_matches (environment_id r) env
  && scope_matches (audience_id r) aud.

(** [a] comes no later than [b] under
    [specificity DESC NULLS LAST, updated_at DESC]. *)
Definition precedes (a b : SettingsV4) : bool :=
  (specificity b <? specificity a)%Z
  || ((specificity a =? specificity b)%Z && (updated_at b <=? updated_at a)%Z).

Fixpoint insert_by (x : SettingsV4) (l : list SettingsV4) : list SettingsV4 :=
  match l with
  | [] => [x]
  | y :: l' => if precedes x y then x :: l else y :: insert_by x l'
  end.

(** [order_by]: rows equal under both keys stay in the order of the store. *)
Definition order_by (l : list SettingsV4) : list SettingsV4 :=
  foldr insert_by [] l.

(** The rows of the resolve query, before [limit(1)]. *)
Definition resolve_query (k : string) (org dom env aud : option string)
    (rows : list SettingsV4) : list SettingsV4 :=
  order_by (List.filter (candidate k org dom env aud) rows).

(** [str(x)] for an optional string. *)
Definition str_opt (x : option string) : string := default "None" x.

(** [bool(s)] for an optional string *)
Definition truthy (x : option string) : bool :=
  match x with Some s => negb (bool_decide (s = "")) | None => false end.

Definition scope_desc (s : SettingsV4) : string :=
  let scope_parts :=
    ((if organization_id s is Some _ then ["Organization"] else [])
     ++ (if domain_id s is Some _ then ["Domain"] else [])
     ++ (if environment_id s is Some _ then ["Environment"] else [])
     ++ (if audience_id s is Some _ then ["Audience"] else []))%list in
  match scope_parts with
  | [] => "Global"
  | _ => String.concat "+" scope_parts
  end.

(** Lift the result of a constructor that validates. *)
Definition construct {A} (r : A + exn) : M A :=
  match r with inl a => ret a | inr e => raise e end.

(** The [try] block of [resolve_setting]. *)
Definition resolve_body (req : SettingsResolveRequest) (db : database)
  : M SettingsResolveResponse :=
  let key := req_key req in
  let audience_key := req_audience_key req in
  let oid := req_oid req in
  scope <- (if truthy oid then
              try_except
                (user_result <- execute (user_query_error db)
                   (List.filter (λ u, bool_decide (Some (user_oid u) = oid)) (users db)) ;;
                 match head user_result with
                 | Some u => ret (user_organization_id u, user_domain_id u,
                                  user_environment_id u)
                 | None => ret (None, None, None)
                 end)
                (λ e, log WARNING ("Error fetching user metadata for oid '"
                                   ++ str_opt oid ++ "': " ++ exc_str e) ;;;
                      ret (None, None, None))
            else ret (None, None, None)) ;;
  let '(user_org_id, user_domain_id, user_env_id) := scope in
  audience_id <- (if negb (bool_decide (audience_key = "")) then
                    audience_result <- execute (audience_query_error db)
                      (List.filter (λ a, bool_decide (aud_code a = audience_key)
                                         && aud_is_active a) (audiences db)) ;;
                    ret (aud_id <$> head audience_result)
                  else ret None) ;;
  result <- execute (settings_query_error db)
              (take 1 (resolve_query key user_org_id user_domain_id user_env_id
                                     audience_id (settings db))) ;;
  match head result with
  | Some setting =>
      create_audit_log "resolve" "settings_v4" (id setting)
        ("Resolved setting '" ++ key ++ "' from " ++ scope_desc setting) ;;;
      (* [setting.specificity or 0] is the score itself, 0 included *)
      construct (SettingsResolveResponse_init key (payload setting)
                   (scope_desc setting) (specificity setting) true)
  | None =>
      log WARNING ("No setting found for key '" ++ key ++ "' with oid='"
                   ++ str_opt oid ++ "', audience_key='" ++ audience_key ++ "'") ;;;
      create_audit_log "resolve" "settings_v4" "none"
        ("Setting '" ++ key ++ "' not found - using default") ;;;
      construct (SettingsResolveResponse_init key PNone
                   "Default (no setting found)" 0 false)
  end.

(** How a call of the handler ends. *)
Inductive reply :=
| Returned (r : SettingsResolveResponse)
| HTTPException (status_code : Z) (detail : string)
| Propagated (e : exn).

(** [resolve_setting] *)
Definition resolve_setting (req : SettingsResolveRequest) (db : database)
  : effects * reply :=
  match resolve_body req db {| logged := []; audited := [] |} with
  | (fx, inl r) => (fx, Returned r)
  | (fx, inr e) =>
      if isinstance e Exception then
        ({| logged := (logged fx ++ [(ERROR, ("Error resolving setting '"
                                              ++ req_key req ++ "': " ++ exc_str e)%string)])%list;
            audited := audited fx |},
         HTTPException 500 "Failed to resolve setting")
      else (fx, Propagated e)
  end.

End Settings.


(** ** ai_service.py *)
Module AIService.
Import PyExc PyVal KernelManager.

(** [s[:n]] *)
Fixpoint take (n : nat) (s : string) : string :=
  match n, s with
  | S n', String a s' => String a (take n' s')
  | _, _ => EmptyString
  end.

(** [s.strip(chars)] for the characters accepted by [strippable]. *)
Fixpoint lstrip_chars (strippable : ascii → bool) (s : string) : string :=
  match s with
  | EmptyString => EmptyString
  | String a s' => if strippable a then lstrip_chars strippable s' else s
  end.

Fixpoint rstrip_chars (strippable : ascii → bool) (s : string) : string :=
  match s with
  | EmptyString => EmptyString
  | String a s' =>
      match rstrip_chars strippable s' with
      | EmptyString => if strippable a then EmptyString else String a EmptyString
      | r => String a r
      end
  end.

Definition strip_chars (strippable : ascii → bool) (s : string) : string :=
  rstrip_chars strippable (lstrip_chars strippable s).

(** The characters of the argument of [strip] in [generate_title]: the
    double and the single quote. *)
Definition is_quote (a : ascii) : bool :=
  ((nat_of_ascii a =? 34) || (nat_of_ascii a =? 39))%nat.

(** A message of a conversation: a dict from strings to strings. *)
Definition message := gmap string string.

(** [msg[k]] *)
Definition getitem (msg : message) (k : string) : string + exn :=
  match msg !! k with
  | Some v => inl v
  | None => inr (Exn KeyError k)
  end.

Definition newline : string := String (ascii_of_nat 10) EmptyString.

(** The loop that builds [conversation_text]. *)
Fixpoint conversation_text (acc : string) (msgs : list message) : string + exn :=
  match msgs with
  | [] => inl acc
  | msg :: rest =>
      let content := default "" (msg !! "content") in
      match getitem msg "role" with
      | inr e => inr e
      | inl role =>
          if (200 <? String.length content)%nat then
            conversation_text (acc ++ role ++ ": " ++ take 200 content ++ "..." ++ newline) rest
          else
            conversation_text (acc ++ role ++ ": " ++ content ++ newline) rest
      end
  end.

Definition title_prompt (text : string) : string :=
  "Generate a concise, descriptive title (5-8 words max) for this conversation:"
  ++ newline ++ newline ++ text ++ newline ++ newline ++ "Title:".

(** [next((msg for msg in msgs if msg["role"] == "user"), None)] *)
Fixpoint first_user_msg (msgs : list message) : option message + exn :=
  match msgs with
  | [] => inl None
  | msg :: rest =>
      match getitem msg "role" with
      | inr e => inr e
      | inl role => if bool_decide (role = "user") then inl (Some msg)
                    else first_user_msg rest
      end
  end.

(** The [except Exception] handler of [generate_title]. *)
Definition title_fallback (msgs : list message) : string + exn :=
  match first_user_msg msgs with
  | inr e => inr e
  | inl (Some msg) =>
      if bool_decide (msg = ∅) then inl "Chat Conversation"
      else
        match getitem msg "content" with
        | inr e => inr e
        | inl c => inl (PyStr.strip (take 50 c))
        end
  | inl None => inl "Chat Conversation"
  end.

(** [str(response.content) if response.content else ""] *)
Definition response_text (c : option string) : string := default "" c.

(** [generate_title].  [provider] is what [get_chat_message_content] does
    for a prompt: the [content] of the response, or an exception. *)
Definition generate_title (provider : string → option string + exn)
    (uid tid : string) (amb : ambient) (msgs : list message) (s : state)
  : state * (string + exn) :=
  match conversation_text "" msgs with
  | inr e => (s, inr e)
  | inl text =>
      let body (_ : ref) (s1 : state) : state * (string + exn) :=
        match provider (title_prompt text) with
        | inl c =>
            (s1, inl (take 50 (PyStr.strip (strip_chars is_quote (response_text c)))))
        | inr e => (s1, inr e)
        end in
      match get_kernel uid tid amb body s with
      | (s', inl title) => (s', inl title)
      | (s', inr e) =>
          if isinstance e Exception then (s', title_fallback msgs)
          else (s', inr e)
      end
  end.

(** The loop that fills the chat history in [chat_completion_text]: the
    role and the content of the user and assistant messages. *)
Fixpoint chat_history (msgs : list message) : list (string * string) + exn :=
  match msgs with
  | [] => inl []
  | msg :: rest =>
      match getitem msg "role" with
      | inr e => inr e
      | inl role =>
          if bool_decide (role = "user") || bool_decide (role = "assistant") then
            match getitem msg "content" with
            | inr e => inr e
            | inl c =>
                match chat_history rest with
                | inr e => inr e
                | inl h => inl ((role, c) :: h)
                end
            end
          else chat_history rest
      end
  end.

(** [if options.system_message: chat_history.add_system_message(...)],
    which comes before the conversation. *)
Definition with_system_message (system_message : option string)
    (h : list (string * string)) : list (string * string) :=
  match system_message with
  | Some m => if bool_decide (m = "") then h else ("system", m) :: h
  | None => h
  end.

(** [chat_completion_text]; [provider] is what [get_chat_message_content]
    does for a chat history. *)
Definition chat_completion_text
    (provider : list (string * string) → option string + exn)
    (uid tid : string) (amb : ambient) (system_message : option string)
    (msgs : list message) (s : state) : state * (string + exn) :=
  let body (_ : ref) (s1 : state) : state * (string + exn) :=
    match chat_history msgs with
    | inr e => (s1, inr e)
    | inl h =>
        match provider (with_system_message system_message h) with
        | inl c => (s1, inl (response_text c))
        | inr e => (s1, inr e)
        end
    end in
  get_kernel uid tid amb body s.

(** [chat_completion_streaming]: the chunks of the kernel's generator are
    yielded on, inside a [get_kernel] block; [mid] are the calls other
    tasks make on the pool while the stream is consumed. *)
Definition chat_completion_streaming (format_arguments : pyval → string)
    (uid tid : string) (amb : ambient) (mid : list op)
    (provider : SemanticKernel.provider_run) (s : state)
  : state * (list SemanticKernel.chunk * option exn) :=
  let '(chunks, raised) :=
    SemanticKernel.chat_completion_streaming format_arguments provider in
  let body (_ : ref) (s1 : state) : state * (unit + exn) :=
    (run mid s1, match raised with None => inl tt | Some e => inr e end) in
  match get_kernel uid tid amb body s with
  | (s', inl _) => (s', (chunks, None))
  | (s', inr e) => (s', (chunks, Some e))
  end.

End AIService.


(** ** features/ai/routers/chat.py *)
Module ChatRouter.
Import PyExc PyVal KernelManager SemanticKernel.

(** An event of the response body: [data: <json.dumps(chunk)>] followed by
    an empty line, or [data: [DONE]]. *)
Inductive event :=
| Data (c : chunk)
| Done.

Section GenerateStream.

Variable format_arguments : pyval → string.

(** The text of the [TypeError] of [json.dumps] for a chunk it cannot
    encode. *)
Variable type_error_text : chunk → string.

(** [json.dumps(chunk, ensure_ascii=False)]: the exception it raises, if
    any.  Content, names, finish reason and role are strings. *)
Definition dumps_error (c : chunk) : option exn :=
  if forallb (λ fc, json_encodable (fc_arguments fc) && json_encodable (fc_result fc))
             (chunk_function_calls c)
  then None
  else Some (Exn TypeError (type_error_text c)).

(** The [try] block of [generate_stream]: the events yielded, and the
    exception that ends the block, if any.  [chunks] and [raised] are what
    the service's generator yields and raises. *)
Fixpoint relay (chunks : list chunk) (raised : option exn) : list event * option exn :=
  match chunks with
  | [] =>
      match raised with
      | None => ([Done], None)
      | Some e => ([], Some e)
      end
  | c :: rest =>
      match dumps_error c with
      | Some e => ([], Some e)
      | None => let '(events, r) := relay rest raised in (Data c :: events, r)
      end
  end.

(** The chunk of the [except Exception] handler. *)
Definition error_chunk (e : exn) : chunk :=
  {| chunk_content := "Error: " ++ exc_str e;
     chunk_function_calls := [];
     chunk_finish_reason := Some "error";
     chunk_role := "assistant" |}.

(** [generate_stream]: the events of the response body and the exception
    that leaves the generator, if any. *)
Definition generate_stream (chunks : list chunk) (raised : option exn)
  : list event * option exn :=
  match relay chunks raised with
  | (events, None) => (events, None)
  | (events, Some e) =>
      if isinstance e Exception then
        match dumps_error (error_chunk e) with
        | Some e' => (events, Some e')
        | None => ((events ++ [Data (error_chunk e); Done])%list, None)
        end
      else (events, Some e)
  end.

(** The body of the response of [chat_completion_stream_v1]:
    [generate_stream] over the generator of the service, for the ids
    [extract_user_info] gave. *)
Definition response_body (user_id tenant_id : string) (amb : ambient)
    (mid : list op) (provider : provider_run) (s : state)
  : state * (list event * option exn) :=
  let '(s', (chunks, raised)) :=
    AIService.chat_completion_streaming format_arguments user_id tenant_id amb mid
      provider s in
  (s', generate_stream chunks raised).

End GenerateStream.

End ChatRouter.


(** ** routers/settings.py: create and delete *)
Module SettingsAdmin.
Import PyExc PyVal Settings.

(** The fields of [SettingsV4Create] that reach the columns of
    [SettingsV4]. *)
Record SettingsV4Create := {
  new_key : string;
  new_payload : pyval;
  new_is_secret : bool;
  new_organization_id : option string;
  new_domain_id : option string;
  new_environment_id : option string;
  new_audience_id : option string;
  new_is_active : bool
}.

(** How a call of an admin handler ends: the row the response is formatted
    from, a message, an HTTP error, or an exception that is no
    [Exception]. *)
Inductive admin_reply :=
| Created (row : SettingsV4)
| Message (text : string)
| Failed (status_code : Z) (detail : string)
| Raised (e : exn).

(** The exceptions the calls on the database session raise, if they
    raise. *)
Record session_errors := {
  query_error : option exn;
  commit_error : option exn;
  refresh_error : option exn
}.

(** [except Exception: ... raise HTTPException(status_code=500, ...)] *)
Definition http_500 (detail : string) (e : exn) : admin_reply :=
  if isinstance e Exception then Failed 500 detail else Raised e.

Section Admin.

(** [uuid.UUID(text)], in its canonical text form; [None] when it raises
    [ValueError]. *)
Variable parse_uuid : string → option string.

(** [uuid.UUID(x) if x else None] *)
Definition scope_value (x : option string) : option string + exn :=
  if truthy x then
    match parse_uuid (default "" x) with
    | Some u => inl (Some u)
    | None => inr (Exn ValueError "badly formed hexadecimal UUID string")
    end
  else inl None.

(** The four scope values of a request, left to right. *)
Definition scope_values (n : SettingsV4Create)
  : (option string * option string * option string * option string) + exn :=
  match scope_value (new_organization_id n) with
  | inr e => inr e
  | inl org =>
      match scope_value (new_domain_id n) with
      | inr e => inr e
      | inl dom =>
          match scope_value (new_environment_id n) with
          | inr e => inr e
          | inl env =>
              match scope_value (new_audience_id n) with
              | inr e => inr e
              | inl aud => inl (org, dom, env, aud)
              end
          end
      end
  end.

(** The filter of the existence check: the key, and each scope column
    equal to the requested value or [IS NULL]. *)
Definition same_scope (k : string) (org dom env aud : option string) (r : SettingsV4) : bool :=
  bool_decide (key r = k)
  && bool_decide (organization_id r = org) && bool_decide (domain_id r = dom)
  && bool_decide (environment_id r = env) && bool_decide (audience_id r = aud).

(** [create_setting] on the rows of the table.  [new_id] and [now] are the
    defaults the store gives the columns [id] and [updated_at]. *)
Definition create_setting (n : SettingsV4Create) (new_id : string) (now : Z)
    (err : session_errors) (rows : list SettingsV4)
  : list SettingsV4 * admin_reply :=
  match scope_values n with
  | inr e => (rows, http_500 "Failed to create setting" e)
  | inl (org, dom, env, aud) =>
      match query_error err with
      | Some e => (rows, http_500 "Failed to create setting" e)
      | None =>
          match head (List.filter (same_scope (new_key n) org dom env aud) rows) with
          | Some _ => (rows, Failed 400 "Setting key already exists in this scope")
          | None =>
              let new_setting :=
                {| id := new_id; key := new_key n; payload := new_payload n;
                   is_secret := new_is_secret n;
                   organization_id := org; domain_id := dom;
                   environment_id := env; audience_id := aud;
                   is_active := new_is_active n; updated_at := now |} in
              match commit_error err with
              | Some e => (rows, http_500 "Failed to create setting" e)
              | None =>
                  match refresh_error err with
                  | Some e => ((rows ++ [new_setting])%list,
                               http_500 "Failed to create setting" e)
                  | None => ((rows ++ [new_setting])%list, Created new_setting)
                  end
              end
          end
      end
  end.

(** [delete_setting]; the row is deleted by its primary key. *)
Definition delete_setting (setting_id : string)
    (err : session_errors) (rows : list SettingsV4)
  : list SettingsV4 * admin_reply :=
  match parse_uuid setting_id with
  | None => (rows, http_500 "Failed to delete setting"
                     (Exn ValueError "badly formed hexadecimal UUID string"))
  | Some u =>
      match query_error err with
      | Some e => (rows, http_500 "Failed to delete setting" e)
      | None =>
          match head (List.filter (λ r, bool_decide (id r = u)) rows) with
          | None => (rows, Failed 404 "Setting not found")
          | Some existing_setting =>
              match commit_error err with
              | Some e => (rows, http_500 "Failed to delete setting" e)
              | None =>
                  (List.filter (λ r, negb (bool_decide (id r = id existing_setting))) rows,
                   Message "Setting deleted successfully")
              end
          end
      end
  end.

End Admin.

End SettingsAdmin.


(** ** kernel_manager.py: monitoring *)
Module Monitoring.
Import PyExc KernelManager.

(** [self._kernels.values()] *)
Definition values (s : state) : list UserKernel :=
  omap (λ entry, objs s !! entry.2) (map_to_list (kernels s)).

(** An entry of [tenant_stats] after the first loop of [get_metrics]; the
    average uptime, a float the second loop fills in, is left out. *)
Record tenant_stat := {
  count : Z;
  total_access_count : Z
}.

(** The body of the first loop: aggregate by tenant. *)
Definition aggregate (tenant_stats : gmap string tenant_stat) (kernel : UserKernel)
  : gmap string tenant_stat :=
  let tenant_id := tenant_id kernel in
  let tenant_stats :=
    match tenant_stats !! tenant_id with
    | None => <[tenant_id := {| count := 0; total_access_count := 0 |}]> tenant_stats
    | Some _ => tenant_stats
    end in
  alter (λ stats, {| count := count stats + 1;
                     total_access_count := total_access_count stats
                                           + access_count kernel |})
        tenant_id tenant_stats.

(** [tenant_stats] and [total_kernels] of [get_metrics]. *)
Definition tenant_stats (s : state) : gmap string tenant_stat :=
  foldl aggregate ∅ (values s).

Definition total_kernels (s : state) : Z := Z.of_nat (size (kernels s)).

End Monitoring.


(** ** semantic_kernel_setup.py: sanitising of user messages

    The replacement text lies outside the code points of [PyStr], so here a
    [str] is the list of its code points. *)
Module Sanitizer.

Definition text := list N.

Definition hyphen : N := 45.

(** The replacement text [マイナス]. *)
Definition minus : text := [12510; 12452; 12490; 12473]%N.

Section Sub.

(** The characters [\d] matches: the decimal digits of Unicode. *)
Variable decimal : N → bool.

(** The longest prefix of digits, and what follows it. *)
Fixpoint digits (s : text) : text * text :=
  match s with
  | c :: rest =>
      if decimal c then let '(ds, rest') := digits rest in (c :: ds, rest')
      else ([], s)
  | [] => ([], [])
  end.

(** [re.sub(r"-(\d+)", r"マイナス\1", s)]: the text is scanned from the left;
    a match is a hyphen with the digits after it, as many as there are and
    at least one, and is replaced by [minus] and these digits; the scan
    goes on behind the match.  [fuel] bounds the number of steps. *)
Fixpoint sub (fuel : nat) (s : text) : text :=
  match fuel, s with
  | S fuel', c :: rest =>
      if (c =? hyphen)%N then
        match digits rest with
        | ([], _) => c :: sub fuel' rest
        | (ds, rest') => (minus ++ ds ++ sub fuel' rest')%list
        end
      else c :: sub fuel' rest
  | _, _ => s
  end.

(** [_sanitize_message_content] *)
Definition _sanitize_message_content (content : text) : text :=
  sub (List.length content) content.

End Sub.

End Sanitizer.


(** ** shared/utils/common.py *)
Module Common.
Import PyExc Settings.

(** What [get_current_user] hands to a route: an object with the
    attributes [oid] and [tenant_id] (a [UserV4]), a dict whose values are
    strings or [None], or an object of another type. *)
Inductive principal :=
| UserObject (oid tenant_id : option string)
| UserDict (d : gmap string (option string))
| OtherObject (type_name : string).

(** [d.get(k)] *)
Definition get (d : gmap string (option string)) (k : string) : option string :=
  default None (d !! k).

(** [extract_user_info] *)
Definition extract_user_info (current_user : principal) : (string * string) + exn :=
  match current_user with
  | UserObject oid tenant_id => inl (str_opt oid, str_opt tenant_id)
  | UserDict d =>
      let user_id := get d "user_id" in
      let user_id := if negb (truthy user_id) then get d "id" else user_id in
      let user_id := if negb (truthy user_id) then get d "oid" else user_id in
      let tenant_id := get d "tenant_id" in
      let tenant_id := if negb (truthy tenant_id) then get d "tid" else tenant_id in
      let tenant_id := if negb (truthy tenant_id) then Some "default" else tenant_id in
      inl (str_opt user_id, str_opt tenant_id)
  | OtherObject type_name =>
      inr (Exn ValueError ("Unsupported current_user type: <class '" ++ type_name ++ "'>"))
  end.

End Common.


(** ** plugin_manager.py *)
Module PluginManager.
Import PyExc.

Inductive plugin :=
| MathPlugin | TimePlugin | HttpPlugin
| MCPStdioPlugin (name : string).

Record state := {
  core_plugins : gmap string plugin;
  mcp_plugins : gmap string plugin;
  _initialized : bool
}.

(** [PluginManager.__init__] *)
Definition init : state :=
  {| core_plugins := ∅; mcp_plugins := ∅; _initialized := false |}.

(** What the constructors and [connect] do during one [initialize]: the
    exception each raises, if it raises. *)
Record outcomes := {
  math_error : option exn;
  time_error : option exn;
  http_error : option exn;
  mcp_error : option exn;
  connect_error : option exn
}.

(** [try: body except Exception: log]: the state the body left, and the
    exception that is no [Exception]. *)
Definition logged (r : state * option exn) : state * option exn :=
  match r with
  | (s, Some e) => if isinstance e Exception then (s, None) else (s, Some e)
  | (s, None) => (s, None)
  end.

Definition set_core (k : string) (p : plugin) (s : state) : state :=
  {| core_plugins := <[k := p]> (core_plugins s); mcp_plugins := mcp_plugins s;
     _initialized := _initialized s |}.

(** [_initialize_core_plugins] *)
Definition _initialize_core_plugins (w : outcomes) (s : state) : state * option exn :=
  logged
    match math_error w with
    | Some e => (s, Some e)
    | None =>
        let s := set_core "Math" MathPlugin s in
        match time_error w with
        | Some e => (s, Some e)
        | None =>
            let s := set_core "Time" TimePlugin s in
            match http_error w with
            | Some e => (s, Some e)
            | None => (set_core "Http" HttpPlugin s, None)
            end
        end
    end.

(** [_initialize_mcp_plugins] *)
Definition _initialize_mcp_plugins (w : outcomes) (s : state) : state * option exn :=
  logged
    match mcp_error w with
    | Some e => (s, Some e)
    | None =>
        match connect_error w with
        | Some e => (s, Some e)
        | None =>
            ({| core_plugins := core_plugins s;
                mcp_plugins := <["context7" := MCPStdioPlugin "context7"]> (mcp_plugins s);
                _initialized := _initialized s |}, None)
        end
    end.

(** [initialize]: the new state and the exception that leaves the call. *)
Definition initialize (w : outcomes) (s : state) : state * option exn :=
  if _initialized s then (s, None)
  else
    match _initialize_core_plugins w s with
    | (s, Some e) => (s, Some e)
    | (s, None) =>
        match _initialize_mcp_plugins w s with
        | (s, Some e) => (s, Some e)
        | (s, None) =>
            ({| core_plugins := core_plugins s; mcp_plugins := mcp_plugins s;
                _initialized := true |}, None)
        end
    end.

(** The loop of [cleanup] over the plugins still to close; [close_error]
    is what [plugin.close()] raises for a name. *)
Fixpoint close_all (close_error : string → option exn) (names : list string)
  : list string * option exn :=
  match names with
  | [] => ([], None)
  | plugin_name :: rest =>
      match close_error plugin_name with
      | Some e =>
          if isinstance e Exception then close_all close_error rest
          else ([], Some e)
      | None =>
          let '(closed, r) := close_all close_error rest in
          (plugin_name :: closed, r)
      end
  end.

(** [cleanup]: the new state, the plugins closed, and the exception that
    leaves the call. *)
Definition cleanup (close_error : string → option exn) (s : state)
  : state * list string * option exn :=
  match close_all close_error (map_to_list (mcp_plugins s)).*1 with
  | (closed, Some e) => (s, closed, Some e)
  | (closed, None) =>
      ({| core_plugins := core_plugins s; mcp_plugins := ∅; _initialized := false |},
       closed, None)
  end.

(** One call on the manager. *)
Inductive op :=
| Initialize (w : outcomes)
| Cleanup (close_error : string → option exn).

Definition exec (s : state) (o : op) : state :=
  match o with
  | Initialize w => (initialize w s).1
  | Cleanup close_error => (cleanup close_error s).1.1
  end.

Definition run (ops : list op) (s : state) : state := foldl exec s ops.

End PluginManager.


(** * Notions used in the statements *)

(** ** The pool *)
Module PoolNotions.
Import PyExc KernelManager.

(** The user id an object of the store was constructed for. *)
Definition owners (m : gmap ref UserKernel) (r : ref) : option string :=
  user_id <$> m !! r.

(** The invariant of the pool: every entry of the dict refers to an object
    constructed for that key, and no object lies beyond [next_ref]. *)
Definition pool_inv (s : state) : Prop :=
  (∀ k r, kernels s !! k = Some r → owners (objs s) r = Some k)
  ∧ (∀ r, (next_ref s ≤ r)%nat → objs s !! r = None).

(** Later states keep the objects of earlier ones, and their owners. *)
Definition extends (s s' : state) : Prop :=
  (next_ref s ≤ next_ref s')%nat
  ∧ ∀ r, (r < next_ref s)%nat → owners (objs s') r = owners (objs s) r.

(** Readings for two calls. *)
Definition amb0 : ambient :=
  {| uuid4 := "6f1c"; utcnow_created := 0; utcnow_first := 0; utcnow_access := 0 |}.
Definition amb1 : ambient :=
  {| uuid4 := "a2e9"; utcnow_created := 5; utcnow_first := 5; utcnow_access := 5 |}.

(** A pool with a threshold of 1800 after one acquisition at time 0. *)
Definition one_session : state :=
  (get_kernel_enter " alice" "tenant-a" amb0 (init 1800)).1.

Definition alice_kernel : UserKernel :=
  update_access 0 (UserKernel_init amb0 "alice" "tenant-a").

(** A body that touches nothing and raises [e]. *)
Definition failing_body (e : exn) (r : ref) (s : state) : state * (unit + exn) :=
  (run [] s, inr e).

End PoolNotions.

(** ** Normalisation and streaming *)
Module StreamNotions.
Import PyExc PyVal SemanticKernel.

(** Values on which normalisation yields JSON: the [text] attribute of an
    object is JSON already, and dict keys are JSON keys. *)
Fixpoint text_is_plain (v : pyval) : bool :=
  match v with
  | PList items => forallb text_is_plain items
  | PDict entries => forallb (λ '(k, x), json_key k && text_is_plain x) entries
  | PObject _ text content value _ =>
      match text with
      | Some t => json_encodable t
      | None =>
          match content with
          | Some c => text_is_plain c
          | None => match value with Some x => text_is_plain x | None => true end
          end
      end
  | _ => true
  end.

Section pyval_induction.
Variable P : pyval → Prop.
Hypothesis HNone : P PNone.
Hypothesis HBool : ∀ b, P (PBool b).
Hypothesis HInt : ∀ z, P (PInt z).
Hypothesis HFloat : ∀ f, P (PFloat f).
Hypothesis HStr : ∀ s, P (PStr s).
Hypothesis HList : ∀ items, Forall P items → P (PList items).
Hypothesis HDict : ∀ entries, Forall (λ kv, P kv.2) entries → P (PDict entries).
Hypothesis HText : ∀ t, P (PTextContent t).
Hypothesis HObject : ∀ ty text content value s,
  (∀ x, content = Some x → P x) → (∀ x, value = Some x → P x) →
  P (PObject ty text content value s).

(** Induction over a value, its list elements, dict values and the
    attributes [content] and [value]. *)
Fixpoint pyval_nested_ind (v : pyval) : P v :=
  match v with
  | PNone => HNone
  | PBool b => HBool b
  | PInt z => HInt z
  | PFloat f => HFloat f
  | PStr s => HStr s
  | PList items =>
      HList items
        ((fix go (l : list pyval) : Forall P l :=
            match l with
            | [] => @List.Forall_nil _ P
            | x :: l' => @List.Forall_cons _ P x l' (pyval_nested_ind x) (go l')
            end) items)
  | PDict entries =>
      HDict entries
        ((fix go (l : list (pyval * pyval)) : Forall (λ kv, P kv.2) l :=
            match l with
            | [] => @List.Forall_nil _ (λ kv, P kv.2)
            | (k, x) :: l' =>
                @List.Forall_cons _ (λ kv, P kv.2) (k, x) l' (pyval_nested_ind x) (go l')
            end) entries)
  | PTextContent t => HText t
  | PObject ty text content value s =>
      HObject ty text content value s
        (λ x (H : content = Some x),
           match content as c return c = Some x → P x with
           | Some c' => λ H', eq_ind c' P (pyval_nested_ind c') x (Some_inj _ _ H')
           | None => λ H', match Some_ne_None _ (eq_sym H') with end
           end H)
        (λ x (H : value = Some x),
           match value as c return c = Some x → P x with
           | Some c' => λ H', eq_ind c' P (pyval_nested_ind c') x (Some_inj _ _ H')
           | None => λ H', match Some_ne_None _ (eq_sym H') with end
           end H)
  end.
End pyval_induction.

(** An HTTP reply object whose [text] attribute is a bound method, and the
    same reply with the method under [content]. *)
Definition bound_method : pyval :=
  PObject "method" None None None (Some "<bound method ClientResponse.text>").
Definition reply_with_text : pyval :=
  PObject "ClientResponse" (Some bound_method) None None (Some "<ClientResponse>").
Definition reply_with_content : pyval :=
  PObject "ClientResponse" None (Some bound_method) None (Some "<ClientResponse>").







(** The rendering of the arguments used in the examples: a [str] renders
    as itself, an empty dict as [{}]. *)
Definition format_example (v : pyval) : string :=
  match v with
  | PStr s => s
  | PDict [] => "{}"
  | PNone => "None"
  | _ => "<object>"
  end.

(** A stream message without direct attributes. *)
Definition no_attrs (fr : option string) (c : option string)
    (its : option (list call_object)) : stream_message :=
  {| finish_reason := fr; content := c; items := its;
     attr_function_calls := None; attr_tool_calls := None;
     attr_function_call := None; attr_function_results := None |}.

Definition completed_call : call_object :=
  {| type_name := "FunctionCallContent"; function_name := Some "get_weather";
     name := Some "get_weather"; arguments := Some (PStr "city=Oslo");
     parameters := None; result := Some (PTextContent "4 C"); value := None |}.


Definition repeated : stream_message := no_attrs None None (Some [completed_call]).

Definition weather_call : function_call :=
  {| fc_name := "get_weather"; fc_arguments := PStr "city=Oslo";
     fc_result := PStr "4 C" |}.

(** The same completed invocation in three consecutive elements. *)
Definition thrice : provider_run :=
  {| partials := [Some repeated; Some repeated; Some repeated]; failure := None |}.

(** One element, then a rejection by the content policy. *)
Definition blocked_run : provider_run :=
  {| partials := [Some (no_attrs None (Some "Hel") None)];
     failure := Some (Exn ValueError
                        "The response was filtered by the Content management Policy") |}.

(** One element, then a broken connection. *)
Definition broken_run : provider_run :=
  {| partials := [Some (no_attrs None (Some "Hel") None)];
     failure := Some (Exn ConnectionResetError "connection reset by peer") |}.

End StreamNotions.

(** ** The resolver *)
Module SettingsNotions.
Import PyExc PyVal Settings.

(** The specification's wording of the score: a weight per dimension,
    summed over the dimensions a row has set. *)
Inductive dimension := Organization | Domain | Environment | Audience.

Definition weight (d : dimension) : Z :=
  match d with
  | Audience => 10
  | Domain => 3
  | Organization => 2
  | Environment => 1
  end.

Definition dimension_of (r : SettingsV4) (d : dimension) : option string :=
  match d with
  | Organization => organization_id r
  | Domain => domain_id r
  | Environment => environment_id r
  | Audience => audience_id r
  end.

Definition set_dimensions (r : SettingsV4) : list dimension :=
  List.filter (λ d, bool_decide (is_Some (dimension_of r d)))
    [Organization; Domain; Environment; Audience].

Definition weighted_score (r : SettingsV4) : Z :=
  foldr Z.add 0%Z (weight <$> set_dimensions r).

Definition is_global (r : SettingsV4) : Prop :=
  organization_id r = None ∧ domain_id r = None
  ∧ environment_id r = None ∧ audience_id r = None.



(** An active row. *)
Definition row (i k : string) (p : pyval) (secret : bool)
    (org dom env aud : option string) (t : Z) : SettingsV4 :=
  {| id := i; key := k; payload := p; is_secret := secret;
     organization_id := org; domain_id := dom; environment_id := env;
     audience_id := aud; is_active := true; updated_at := t |}.

Definition global_row : SettingsV4 :=
  row "s-1" "theme" (PStr "light") false None None None None 30.
Definition environment_row : SettingsV4 :=
  row "s-2" "theme" (PStr "grey") false None None (Some "env-prod") None 20.
Definition organization_row : SettingsV4 :=
  row "s-3" "theme" (PStr "dark") false (Some "org-1") None None None 10.
Definition secret_organization_row : SettingsV4 :=
  row "s-4" "theme" (PStr "hidden") true (Some "org-1") None None None 40.

(** A database whose queries succeed. *)
Definition tables (us : list UserV4) (auds : list AudienceV4) (rows : list SettingsV4)
  : database :=
  {| users := us; audiences := auds; settings := rows;
     user_query_error := None; audience_query_error := None;
     settings_query_error := None |}.

Definition ann : UserV4 :=
  {| user_oid := "oid-ann"; user_organization_id := Some "org-1";
     user_domain_id := None; user_environment_id := Some "env-prod" |}.

Definition theme_request (oid : option string) : SettingsResolveRequest :=
  {| req_key := "theme"; req_audience_key := "react_admin"; req_oid := oid |}.

(** The three rows above, with an audience query that raises. *)
Definition audience_query_down : database :=
  {| users := [ann]; audiences := [];
     settings := [global_row; environment_row; organization_row];
     user_query_error := None;
     audience_query_error := Some (Exn ConnectionResetError "connection reset by peer");
     settings_query_error := None |}.

(** The three rows above, with a user query that raises. *)
Definition user_query_down : database :=
  {| users := [ann]; audiences := [];
     settings := [global_row; environment_row; organization_row];
     user_query_error := Some (Exn ConnectionResetError "connection reset by peer");
     audience_query_error := None;
     settings_query_error := None |}.

(** [db] with an empty user table whose query succeeds. *)
Definition without_user_table (db : database) : database :=
  {| users := []; audiences := audiences db; settings := settings db;
     user_query_error := None; audience_query_error := audience_query_error db;
     settings_query_error := settings_query_error db |}.

End SettingsNotions.

(** ** The pool, continued *)
Module PoolMoreNotions.
Import PyExc KernelManager PoolNotions.

(** Every session in the dict is a live object constructed for its key. *)
Definition pool_live (s : state) : Prop :=
  ∀ k r, kernels s !! k = Some r →
         ∃ o, objs s !! r = Some o ∧ user_id o = k ∧ is_active o = true.

(** The calls that are not an acquisition. *)
Definition is_acquire (o : op) : bool :=
  match o with Acquire _ _ _ => true | _ => false end.

(** A pool with sessions for alice (last used at 0) and bob (last used at 5). *)
Definition two_sessions : state :=
  run [Acquire "alice" "tenant-a" amb0; Acquire "bob" "tenant-b" amb1] (init 1800).

End PoolMoreNotions.

(** ** Streaming, continued *)
Module StreamMoreNotions.
Import PyExc PyVal SemanticKernel StreamNotions.

(** The text an element of the provider's stream carries. *)
Definition message_text (sm : option stream_message) : string :=
  match sm with
  | Some m => getattr (content m) ""
  | None => ""
  end.

(** The texts of a list, one after the other. *)
Definition joined (l : list string) : string := foldr String.append "" l.

(** A JSON value three levels deep. *)
Definition nested_json : pyval :=
  PDict [(PStr "rows", PList [PDict [(PStr "id", PInt 7); (PStr "ok", PBool true)];
                             PNone; PFloat 0]);
         (PInt 3, PStr "three")].

(** A list of a text content and of a result object whose value holds a
    socket. *)
Definition mixed_result : pyval :=
  PList [PTextContent "a";
         PObject "Result" None None
                 (Some (PList [PObject "Socket" None None None None])) (Some "r")].

(** Two elements with text around one that only repeats a call. *)
Definition talk : list (option stream_message) :=
  [Some (no_attrs None (Some "Hel") None);
   None;
   Some (no_attrs None None (Some [completed_call]));
   Some (no_attrs (Some "stop") (Some "lo") (Some [completed_call]))].

End StreamMoreNotions.

(** ** The service and the chat route *)
Module AIServiceNotions.
Import PyExc PyVal KernelManager PoolNotions SemanticKernel StreamNotions AIService ChatRouter.

(** A message with a role and a content. *)
Definition well_formed (msg : message) : Prop :=
  is_Some (msg !! "role") ∧ is_Some (msg !! "content").

Definition msg (role content : string) : message :=
  <["role" := role]> (<["content" := content]> ∅).

Definition small_talk : list message :=
  [msg "assistant" "Hello, how can I help?"; msg "user" "  What is the weather in Oslo today?  "].

(** A provider that answers with a quoted title, and one whose connection
    is broken. *)
Definition titled (prompt : string) : option string + exn :=
  inl (Some "'Weather in Oslo'").
Definition unreachable_provider (prompt : string) : option string + exn :=
  inr (Exn ConnectionResetError "connection reset by peer").

(** What a message contributes to a completion: its role and its content
    when the role is [user] or [assistant], nothing otherwise. *)
Definition spoken (m : message) : option (string * string) :=
  match m !! "role", m !! "content" with
  | Some role, Some content =>
      if decide (role = "user" ∨ role = "assistant") then Some (role, content)
      else None
  | _, _ => None
  end.

(** What the provider is to be asked: the system message, if there is a
    non-empty one, and then the user and assistant messages in their
    order. *)
Definition prompt (system_message : option string) (msgs : list message)
  : list (string * string) :=
  (match system_message with
   | Some m => if decide (m = "") then [] else [("system", m)]
   | None => []
   end ++ omap spoken msgs)%list.

(** A conversation with a tool message in it. *)
Definition with_tool : list message :=
  [msg "user" "What is the weather in Oslo?"; msg "tool" "4 C";
   msg "assistant" "It is 4 C in Oslo."; msg "user" "And tomorrow?"].

(** A provider whose connection breaks for exactly one chat history, and
    which answers every other one. *)
Definition breaks_on (h : list (string * string)) (asked : list (string * string))
  : option string + exn :=
  if decide (asked = h) then inr (Exn ConnectionResetError "connection reset by peer")
  else inl (Some "ok").

(** The chunks [json.dumps] encodes. *)
Definition encodable (type_error_text : chunk → string) (c : chunk) : Prop :=
  dumps_error type_error_text c = None.

(** The text of the [TypeError] used in the examples. *)
Definition not_serializable (c : chunk) : string :=
  "Object of type method is not JSON serializable".

(** A completed call whose result is an HTTP reply with a method under
    [text], between two elements with text. *)
Definition fetch_call : call_object :=
  {| type_name := "FunctionCallContent"; function_name := Some "http_get";
     name := Some "http_get"; arguments := Some (PStr "url=https://example.org");
     parameters := None; result := Some reply_with_text; value := None |}.

Definition fetch_run : provider_run :=
  {| partials := [Some (no_attrs None (Some "Hel") None);
                  Some (no_attrs None None (Some [fetch_call]));
                  Some (no_attrs (Some "stop") (Some "lo") None)];
     failure := None |}.

End AIServiceNotions.

(** ** The resolver, continued *)
Module SettingsMoreNotions.
Import PyExc PyVal Settings SettingsNotions.

(** A scope column admits a caller's value: it is unset, or it is that
    value. *)
Definition admits (col caller : option string) : Prop :=
  col = None ∨ col = caller.

(** The rows that may answer a request for key [k] by a caller with the
    coordinates [org], [dom], [env] and [aud]: the key is the requested
    one, the row is active and not secret, and each of its four scope
    columns admits the caller's value. *)
Definition eligible (k : string) (org dom env aud : option string) (r : SettingsV4)
  : Prop :=
  key r = k ∧ is_active r = true ∧ is_secret r = false
  ∧ admits (organization_id r) org ∧ admits (domain_id r) dom
  ∧ admits (environment_id r) env ∧ admits (audience_id r) aud.

(** [c] is no better an answer than [r]: its score is lower, or the same
    and its update no later. *)
Definition no_better (r c : SettingsV4) : Prop :=
  (weighted_score c < weighted_score r)%Z
  ∨ (weighted_score c = weighted_score r ∧ (updated_at c ≤ updated_at r)%Z).

Definition dimension_name (d : dimension) : string :=
  match d with
  | Organization => "Organization"
  | Domain => "Domain"
  | Environment => "Environment"
  | Audience => "Audience"
  end.

(** The names of the dimensions a row has set, joined by [+]; [Global] for
    a row that has none. *)
Definition scope_name (r : SettingsV4) : string :=
  match set_dimensions r with
  | [] => "Global"
  | ds => String.concat "+" (dimension_name <$> ds)
  end.

(** A row of ann's organization that is more recent than
    [organization_row], and an inactive one that is more recent still. *)
Definition newer_organization_row : SettingsV4 :=
  row "s-5" "theme" (PStr "navy") false (Some "org-1") None None None 50.
Definition inactive_organization_row : SettingsV4 :=
  {| id := "s-6"; key := "theme"; payload := PStr "off"; is_secret := false;
     organization_id := Some "org-1"; domain_id := None; environment_id := None;
     audience_id := None; is_active := false; updated_at := 60 |}.

End SettingsMoreNotions.

(** ** Administration of settings *)
Module SettingsAdminNotions.
Import PyExc PyVal Settings SettingsNotions SettingsAdmin.

(** The key and the four scope columns of a row. *)
Definition scope_tuple (r : SettingsV4) :=
  (key r, organization_id r, domain_id r, environment_id r, audience_id r).

(** No two rows have the same key in the same scope. *)
Definition unique_scopes (rows : list SettingsV4) : Prop :=
  NoDup (scope_tuple <$> rows).

(** A session whose calls succeed. *)
Definition no_errors : session_errors :=
  {| query_error := None; commit_error := None; refresh_error := None |}.

(** A parser that accepts the ids of the examples as they are. *)
Definition parse_example (text : string) : option string :=
  if PyStr.startswith "bad" text then None else Some text.

Definition dark_for_org_2 : SettingsV4Create :=
  {| new_key := "theme"; new_payload := PStr "dark"; new_is_secret := false;
     new_organization_id := Some "org-2"; new_domain_id := Some "";
     new_environment_id := None; new_audience_id := None; new_is_active := true |}.

End SettingsAdminNotions.

(** ** Monitoring *)
Module MonitoringNotions.
Import PyExc KernelManager Monitoring.

(** The sum of a field over the tenants. *)
Definition over_tenants (field : tenant_stat → Z) (m : gmap string tenant_stat) : Z :=
  map_fold (λ _ stats acc, (field stats + acc)%Z) 0%Z m.

(** The sessions of a tenant among [ks]. *)
Definition of_tenant (t : string) (ks : list UserKernel) : list UserKernel :=
  List.filter (λ k, bool_decide (tenant_id k = t)) ks.

Definition accesses (ks : list UserKernel) : Z :=
  foldr (λ k acc, (access_count k + acc)%Z) 0%Z ks.

End MonitoringNotions.

(** ** Sanitising *)
Module SanitizerNotions.
Import Sanitizer.

(** A hyphen directly before a digit occurs in the text. *)
Fixpoint negative_number (decimal : N → bool) (s : text) : bool :=
  match s with
  | c :: rest =>
      ((c =? hyphen)%N && match rest with d :: _ => decimal d | [] => false end)
      || negative_number decimal rest
  | [] => false
  end.

(** The number of hyphens directly before a digit. *)
Fixpoint negative_numbers (decimal : N → bool) (s : text) : nat :=
  match s with
  | c :: rest =>
      (if (c =? hyphen)%N && match rest with d :: _ => decimal d | [] => false end
       then 1 else 0) + negative_numbers decimal rest
  | [] => 0
  end.

(** Every hyphen before a digit becomes [minus]; all else stays. *)
Fixpoint replace (decimal : N → bool) (s : text) : text :=
  match s with
  | c :: rest =>
      if (c =? hyphen)%N && match rest with d :: _ => decimal d | [] => false end
      then (minus ++ replace decimal rest)%list
      else c :: replace decimal rest
  | [] => []
  end.

(** The digits of ASCII. *)
Definition ascii_digit (c : N) : bool := ((48 <=? c) && (c <=? 57))%N.

(** [Pay -100 or 7-5] *)
Definition pay : text := [80; 97; 121; 32; 45; 49; 48; 48; 32; 111; 114; 32; 55; 45; 53]%N.

End SanitizerNotions.

(** ** Principals *)
Module CommonNotions.
Import PyExc Settings Common.

(** A dict that holds no user id under any of the three keys. *)
Definition no_user_id (d : gmap string (option string)) : Prop :=
  get d "user_id" = None ∧ get d "id" = None ∧ get d "oid" = None.

(** The payload of a token without object id, and a dict with a name
    only. *)
Definition token_payload : gmap string (option string) :=
  <["tid" := Some "tenant-b"]> (<["sub" := Some "x7"]> ∅).
Definition name_only : gmap string (option string) :=
  <["name" := Some "Demo User"]> (<["user_id" := None]> ∅).

End CommonNotions.

(** ** Plugins *)
Module PluginNotions.
Import PyExc PluginManager.

(** The plugins the manager can hold. *)
Definition known_plugins (s : state) : Prop :=
  (∀ k p, core_plugins s !! k = Some p →
          (k, p) ∈ [("Math", MathPlugin); ("Time", TimePlugin); ("Http", HttpPlugin)])
  ∧ (∀ k p, mcp_plugins s !! k = Some p → k = "context7" ∧ p = MCPStdioPlugin "context7").

(** No MCP plugin is held unless the manager is initialized. *)
Definition plugin_inv (s : state) : Prop :=
  known_plugins s ∧ (_initialized s = false → mcp_plugins s = ∅).

(** A start in which [npx] is missing. *)
Definition npx_missing : outcomes :=
  {| math_error := None; time_error := None; http_error := None; mcp_error := None;
     connect_error := Some (Exn OSError "No such file or directory: 'npx'") |}.

Definition all_fine : outcomes :=
  {| math_error := None; time_error := None; http_error := None; mcp_error := None;
     connect_error := None |}.

End PluginNotions.


(** * Properties *)

(** ** The session pool *)
Module PoolProofs.
Import PyExc KernelManager PoolNotions.

Lemma cleanup_user_id k : user_id (cleanup k) = user_id k.
Proof. unfold cleanup. by destruct (is_active k). Qed.

Lemma cleanup_inactive k : is_active (cleanup k) = false.
Proof. unfold cleanup. by destruct (is_active k) eqn:E. Qed.

Lemma cleanup_idemp k : cleanup (cleanup k) = cleanup k.
Proof. unfold cleanup. destruct (is_active k) eqn:E; simpl; by rewrite ?E. Qed.

Lemma owners_alter f r m r' :
  (∀ k, user_id (f k) = user_id k) → owners (alter f r m) r' = owners m r'.
Proof.
  intros Hf. unfold owners. rewrite lookup_alter. case_decide; [subst|done].
  destruct (m !! r'); simpl; by rewrite ?Hf.
Qed.

Lemma extends_refl s : extends s s.
Proof. by split. Qed.

Lemma extends_trans s1 s2 s3 : extends s1 s2 → extends s2 s3 → extends s1 s3.
Proof.
  intros [H1 H2] [H3 H4]. split; [lia|].
  intros r Hr. rewrite H4 by lia. by apply H2.
Qed.

Lemma owners_lt s k r : pool_inv s → owners (objs s) r = Some k → (r < next_ref s)%nat.
Proof.
  intros [_ Hn] Ho. destruct (decide (r < next_ref s)%nat) as [|Hge]; [done|].
  unfold owners in Ho. rewrite Hn in Ho by lia. done.
Qed.

Lemma init_inv T : pool_inv (init T).
Proof. split; intros; by simplify_map_eq. Qed.

Lemma evict_inv s e : pool_inv s → pool_inv (evict s e) ∧ extends s (evict s e).
Proof.
  intros [Hk Hn]. repeat split; simpl.
  - intros k r. rewrite lookup_delete. case_decide; [done|]. intros Hkr.
    rewrite owners_alter; [by apply Hk | apply cleanup_user_id].
  - intros r Hr. rewrite lookup_alter. case_decide; [subst|by apply Hn].
    by rewrite Hn.
  - done.
  - intros r _. apply owners_alter, cleanup_user_id.
Qed.

Lemma foldl_evict_inv l s :
  pool_inv s → pool_inv (foldl evict s l) ∧ extends s (foldl evict s l).
Proof.
  revert s. induction l as [|e l IH]; intros s Hs; simpl.
  - split; [done | apply extends_refl].
  - destruct (evict_inv s e Hs) as [H1 H2].
    destruct (IH _ H1) as [H3 H4]. split; [done | by eapply extends_trans].
Qed.

Lemma foldl_alter_cleanup_owners (l : list (string * ref)) m r :
  owners (foldl (λ o entry, alter cleanup entry.2 o) m l) r = owners m r.
Proof.
  revert m. induction l as [|e l IH]; intros m; simpl; [done|].
  rewrite IH. apply owners_alter, cleanup_user_id.
Qed.

Lemma foldl_alter_cleanup_None (l : list (string * ref)) (m : gmap ref UserKernel) r :
  m !! r = None → foldl (λ o entry, alter cleanup entry.2 o) m l !! r = None.
Proof.
  revert m. induction l as [|e l IH]; intros m Hm; simpl; [done|].
  apply IH. rewrite lookup_alter. case_decide; [subst|done]. by rewrite Hm.
Qed.

Lemma stop_inv s : pool_inv s → pool_inv (stop s) ∧ extends s (stop s).
Proof.
  intros [Hk Hn]. repeat split; simpl.
  - intros k r. by rewrite lookup_empty.
  - intros r Hr. by apply foldl_alter_cleanup_None, Hn.
  - done.
  - intros r _. apply foldl_alter_cleanup_owners.
Qed.

Lemma remove_kernel_inv uid s :
  pool_inv s → pool_inv (remove_kernel uid s) ∧ extends s (remove_kernel uid s).
Proof.
  intros Hs. unfold remove_kernel.
  destruct (kernels s !! PyStr.strip uid); [by apply evict_inv|].
  split; [done | apply extends_refl].
Qed.

Lemma get_kernel_except_inv uid e s :
  pool_inv s → pool_inv (get_kernel_except uid e s)
               ∧ extends s (get_kernel_except uid e s).
Proof.
  intros Hs. unfold get_kernel_except.
  destruct (isinstance e Exception), (connection_fatal e),
    (kernels s !! PyStr.strip uid); try (by apply evict_inv);
    (split; [done | apply extends_refl]).
Qed.

Lemma update_access_user_id now k : user_id (update_access now k) = user_id k.
Proof. done. Qed.

(** What [get_kernel] yields: the object stored under the normalised key. *)
Lemma get_kernel_enter_spec uid tid amb s :
  pool_inv s →
  let s' := (get_kernel_enter uid tid amb s).1 in
  let r := (get_kernel_enter uid tid amb s).2 in
  pool_inv s' ∧ extends s s'
  ∧ kernels s' !! PyStr.strip uid = Some r
  ∧ (∀ k, k ≠ PyStr.strip uid → kernels s' !! k = kernels s !! k)
  ∧ match kernels s !! PyStr.strip uid with
    | Some r0 => r = r0 ∧ kernels s' = kernels s
    | None => r = next_ref s
    end.
Proof.
  intros [Hk Hn]. unfold get_kernel_enter, set_objs.
  destruct (kernels s !! PyStr.strip uid) as [r0|] eqn:E; simpl.
  - repeat split; try done; simpl.
    + intros k r Hkr. rewrite owners_alter; [by apply Hk | done].
    + intros r Hr. rewrite lookup_alter. case_decide; [subst|by apply Hn].
      by rewrite Hn.
    + intros r _. by apply owners_alter.
  - repeat split; try done; simpl.
    + intros k r. rewrite lookup_insert, owners_alter by done.
      unfold owners. rewrite lookup_insert.
      destruct (decide (PyStr.strip uid = k)) as [<-|Hne].
      * intros [= <-]. by rewrite decide_True.
      * intros Hkr. destruct (decide (next_ref s = r)) as [<-|Hne'].
        -- specialize (Hk _ _ Hkr). unfold owners in Hk. by rewrite Hn in Hk.
        -- by apply Hk.
    + intros r Hr. rewrite lookup_alter_ne, lookup_insert_ne by lia.
      apply Hn. lia.
    + lia.
    + intros r Hr. rewrite owners_alter by done. unfold owners.
      by rewrite lookup_insert_ne by lia.
    + by rewrite lookup_insert, decide_True.
    + intros k Hne. rewrite lookup_insert. by rewrite decide_False.
Qed.

Lemma exec_inv s o : pool_inv s → pool_inv (exec s o) ∧ extends s (exec s o).
Proof.
  intros Hs. destruct o; simpl.
  - destruct (get_kernel_enter_spec uid tid amb s Hs) as (?&?&_). by split.
  - by apply get_kernel_except_inv.
  - by apply remove_kernel_inv.
  - by apply foldl_evict_inv.
  - by apply stop_inv.
Qed.

Lemma run_inv ops s : pool_inv s → pool_inv (run ops s) ∧ extends s (run ops s).
Proof.
  unfold run. revert s. induction ops as [|o ops IH]; intros s Hs; simpl.
  - split; [done | apply extends_refl].
  - destruct (exec_inv s o Hs) as [H1 H2]. destruct (IH _ H1) as [H3 H4].
    split; [done | by eapply extends_trans].
Qed.

Lemma reachable_inv ops T : pool_inv (run ops (init T)).
Proof. apply run_inv, init_inv. Qed.

(** A call that does not evict key [k] leaves its dict entry alone. *)
Lemma exec_keeps k r s o :
  evicts k o = false → kernels s !! k = Some r → kernels (exec s o) !! k = Some r.
Proof.
  intros He Hk. destruct o; simpl in *; try done.
  - unfold get_kernel_enter.
    destruct (kernels s !! PyStr.strip uid) eqn:E; simpl; [done|].
    rewrite lookup_insert. case_decide; [congruence | done].
  - unfold get_kernel_except.
    destruct (isinstance e Exception); [|done].
    destruct (connection_fatal e); [|done]. simpl in He.
    apply bool_decide_eq_false in He.
    destruct (kernels s !! PyStr.strip uid); [|done]. simpl.
    rewrite lookup_delete. by rewrite decide_False.
  - unfold remove_kernel. apply bool_decide_eq_false in He.
    destruct (kernels s !! PyStr.strip uid); [|done]. simpl.
    rewrite lookup_delete. by rewrite decide_False.
Qed.

Lemma run_keeps k r ops s :
  Forall (λ o, evicts k o = false) ops →
  kernels s !! k = Some r → kernels (run ops s) !! k = Some r.
Proof.
  unfold run. intros Hops. revert s.
  induction Hops as [|o ops Ho _ IH]; intros s Hk; simpl; [done|].
  by apply IH, exec_keeps.
Qed.

Lemma foldl_evict_kernels l s u :
  kernels (foldl evict s l) !! u
  = if decide (u ∈ l.*1) then None else kernels s !! u.
Proof.
  revert s. induction l as [|[u' r'] l IH]; intros s.
  - rewrite decide_False; [done | apply not_elem_of_nil].
  - rewrite fmap_cons.
    change (foldl evict s ((u', r') :: l)) with (foldl evict (evict s (u', r')) l).
    rewrite IH. cbn [evict kernels fst]. rewrite lookup_delete.
    destruct (decide (u ∈ u' :: l.*1)) as [Hin|Hnin].
    + apply elem_of_cons in Hin as [->|Hin].
      * destruct (decide (u' ∈ l.*1)); [done | by rewrite decide_True].
      * by rewrite decide_True.
    + apply not_elem_of_cons in Hnin as [Hne Hnin].
      by rewrite decide_False, decide_False.
Qed.

Lemma foldl_evict_objs l s r :
  objs (foldl evict s l) !! r
  = if decide (r ∈ l.*2) then cleanup <$> objs s !! r else objs s !! r.
Proof.
  revert s. induction l as [|[u' r'] l IH]; intros s.
  - rewrite decide_False; [done | apply not_elem_of_nil].
  - rewrite fmap_cons.
    change (foldl evict s ((u', r') :: l)) with (foldl evict (evict s (u', r')) l).
    rewrite IH. cbn [evict objs snd]. rewrite lookup_alter.
    assert (Hid : cleanup <$> (cleanup <$> objs s !! r) = cleanup <$> objs s !! r).
    { destruct (objs s !! r); simpl; by rewrite ?cleanup_idemp. }
    destruct (decide (r ∈ r' :: l.*2)) as [Hin|Hnin].
    + apply elem_of_cons in Hin as [->|Hin].
      * rewrite (decide_True (P := r' = r')) by done.
        destruct (decide (r' ∈ l.*2)); [by rewrite Hid | done].
      * rewrite (decide_True (P := r ∈ l.*2)) by done.
        destruct (decide (r' = r)) as [->|]; [by rewrite Hid | done].
    + apply not_elem_of_cons in Hnin as [Hne Hnin].
      rewrite (decide_False (P := r ∈ l.*2)) by done.
      by rewrite decide_False by congruence.
Qed.

Lemma elem_of_idle_kernels now s u r :
  (u, r) ∈ idle_kernels now s ↔ idle now s (u, r) ∧ kernels s !! u = Some r.
Proof.
  unfold idle_kernels. by rewrite list_elem_of_filter, elem_of_map_to_list.
Qed.

(** C6 (amended): after one sweep at time [now], every session idle for
    longer than the threshold is out of the dict and torn down, and every
    session idle for at most the threshold is still in the dict, the same
    object, untouched. *)
Theorem idle_sweep_strict (now : Z) (s : state) (u : string) (r : ref) (k : UserKernel) :
  kernels s !! u = Some r →
  objs s !! r = Some k →
  let s' := _cleanup_idle_kernels now s in
  ((max_idle_time s < now - last_accessed k)%Z →
     kernels s' !! u = None ∧ objs s' !! r = Some (cleanup k)
     ∧ is_active (cleanup k) = false)
  ∧ ((now - last_accessed k ≤ max_idle_time s)%Z →
     kernels s' !! u = Some r ∧ objs s' !! r = Some k).
Proof.
  intros Hu Hr s'. subst s'. unfold _cleanup_idle_kernels.
  rewrite foldl_evict_kernels, foldl_evict_objs. split.
  - intros Hidle.
    assert (Hin : (u, r) ∈ idle_kernels now s).
    { apply elem_of_idle_kernels. split; [|done]. unfold idle. simpl. by rewrite Hr. }
    rewrite decide_True by (apply list_elem_of_fmap; by exists (u, r)).
    rewrite decide_True by (apply list_elem_of_fmap; by exists (u, r)).
    rewrite Hr. by rewrite cleanup_inactive.
  - intros Hfresh.
    rewrite decide_False, decide_False; [done| |].
    + intros ([u' r'] & Heq & Hin)%list_elem_of_fmap. simpl in Heq. subst r'.
      apply elem_of_idle_kernels in Hin as [Hi _].
      unfold idle in Hi. simpl in Hi. rewrite Hr in Hi. lia.
    + intros ([u' r'] & Heq & Hin)%list_elem_of_fmap. simpl in Heq. subst u'.
      apply elem_of_idle_kernels in Hin as [Hi Hk].
      rewrite Hu in Hk. injection Hk as <-.
      unfold idle in Hi. simpl in Hi. rewrite Hr in Hi. lia.
Qed.

(** The sweep on [one_session]: at time 1801 the session is evicted, at
    time 1800 it is kept. *)
Lemma idle_sweep_strict_witness :
  kernels (_cleanup_idle_kernels 1801 one_session) !! "alice" = None
  ∧ kernels (_cleanup_idle_kernels 1800 one_session) !! "alice" = Some 0%nat.
Proof.
  split.
  - apply (idle_sweep_strict 1801 one_session "alice" 0%nat alice_kernel);
      vm_compute; reflexivity.
  - apply (idle_sweep_strict 1800 one_session "alice" 0%nat alice_kernel);
      vm_compute; [reflexivity | reflexivity | discriminate].
Defined.

(** C6, as stated, fails when the age equals the threshold: the session is
    idle for exactly [max_idle_time] and the sweep keeps it. *)
Lemma idle_sweep_keeps_age_equal_threshold :
  kernels one_session !! "alice" = Some 0%nat
  ∧ objs one_session !! 0%nat = Some alice_kernel
  ∧ (1800 - last_accessed alice_kernel >= max_idle_time one_session)%Z
  ∧ kernels (_cleanup_idle_kernels 1800 one_session) !! "alice" = Some 0%nat
  ∧ objs (_cleanup_idle_kernels 1800 one_session) !! 0%nat = Some alice_kernel.
Proof. vm_compute. repeat split; discriminate. Qed.

(** C1 (amended): in every state the pool can reach, sessions acquired for
    user ids that differ after trimming are different objects, whatever
    happens between the two calls; two acquisitions for user ids that are
    equal after trimming yield the same object when no call in between
    evicts that key; and an acquisition after [remove_kernel] yields an
    object that did not exist before, active, while the removed one is torn
    down. *)
Theorem one_session_per_user_id (T : Z) (ops : list op) :
  let s := run ops (init T) in
  (∀ u1 t1 a1 mid u2 t2 a2,
     PyStr.strip u1 ≠ PyStr.strip u2 →
     let e1 := get_kernel_enter u1 t1 a1 s in
     let e2 := get_kernel_enter u2 t2 a2 (run mid e1.1) in
     e1.2 ≠ e2.2)
  ∧ (∀ u1 t1 a1 mid u2 t2 a2,
     PyStr.strip u1 = PyStr.strip u2 →
     Forall (λ o, evicts (PyStr.strip u1) o = false) mid →
     let e1 := get_kernel_enter u1 t1 a1 s in
     let e2 := get_kernel_enter u2 t2 a2 (run mid e1.1) in
     e1.2 = e2.2)
  ∧ (∀ u r t a,
     kernels s !! PyStr.strip u = Some r →
     let s' := remove_kernel u s in
     let e := get_kernel_enter u t a s' in
     kernels s' !! PyStr.strip u = None
     ∧ is_active <$> objs s' !! r = Some false
     ∧ e.2 ≠ r
     ∧ objs s !! e.2 = None
     ∧ objs e.1 !! e.2
       = Some (update_access (utcnow_access a) (UserKernel_init a (PyStr.strip u) t))
     ∧ kernels e.1 !! PyStr.strip u = Some e.2).
Proof.
  intros s. pose proof (reachable_inv ops T) as Hs. fold s in Hs.
  split; [|split].
  - intros u1 t1 a1 mid u2 t2 a2 Hne e1 e2 Heq.
    destruct (get_kernel_enter_spec u1 t1 a1 s Hs) as (Hi1 & _ & Hk1 & _).
    fold e1 in Hi1, Hk1.
    destruct (run_inv mid e1.1 Hi1) as [Hi2 Hx2].
    destruct (get_kernel_enter_spec u2 t2 a2 _ Hi2) as (Hi3 & Hx3 & Hk3 & _).
    fold e2 in Hi3, Hx3, Hk3.
    pose proof (proj1 Hi1 _ _ Hk1) as Ho1.
    pose proof (proj1 Hi3 _ _ Hk3) as Ho3.
    pose proof (owners_lt _ _ _ Hi1 Ho1) as Hlt.
    destruct Hx2 as [Hn2 Hx2]. destruct Hx3 as [Hn3 Hx3].
    rewrite <- Heq, Hx3, Hx2, Ho1 in Ho3 by lia. congruence.
  - intros u1 t1 a1 mid u2 t2 a2 Heq Hmid e1 e2.
    destruct (get_kernel_enter_spec u1 t1 a1 s Hs) as (Hi1 & _ & Hk1 & _).
    fold e1 in Hi1, Hk1.
    pose proof (run_keeps _ _ _ _ Hmid Hk1) as Hk2.
    destruct (run_inv mid e1.1 Hi1) as [Hi2 _].
    destruct (get_kernel_enter_spec u2 t2 a2 _ Hi2) as (_ & _ & _ & _ & Hm).
    fold e2 in Hm. rewrite <- Heq, Hk2 in Hm. by destruct Hm.
  - intros u r t a Hk s' e.
    destruct Hs as [Hown Hnone].
    pose proof (Hown _ _ Hk) as Ho.
    assert (Hlt : (r < next_ref s)%nat) by (by eapply owners_lt).
    unfold owners in Ho. destruct (objs s !! r) as [o|] eqn:Hobj; [|done].
    assert (Hs' : s' = evict s (PyStr.strip u, r)).
    { unfold s', remove_kernel. by rewrite Hk. }
    assert (Hk' : kernels s' !! PyStr.strip u = None).
    { rewrite Hs'. simpl. apply lookup_delete_eq. }
    assert (He : e = get_kernel_enter u t a s') by done.
    unfold get_kernel_enter, set_objs in He. rewrite Hk' in He.
    rewrite He; simpl. rewrite Hs'; simpl.
    repeat split.
    + apply lookup_delete_eq.
    + rewrite lookup_alter_eq, Hobj. simpl. by rewrite cleanup_inactive.
    + lia.
    + apply Hnone. lia.
    + by rewrite lookup_alter_eq, lookup_insert_eq.
    + apply lookup_insert_eq.
Qed.

(** The three parts on small pools: alice and bob get different objects,
    alice gets hers again after bob is removed, and a new one after her
    own removal. *)
Lemma one_session_per_user_id_witness :
  (get_kernel_enter "alice" "tenant-a" amb0 (init 1800)).2
  ≠ (get_kernel_enter "bob" "tenant-a" amb1
       (run [] (get_kernel_enter "alice" "tenant-a" amb0 (init 1800)).1)).2
  ∧ (get_kernel_enter "alice" "tenant-a" amb0 (init 1800)).2
    = (get_kernel_enter " alice " "tenant-a" amb1
         (run [Remove "bob"] (get_kernel_enter "alice" "tenant-a" amb0 (init 1800)).1)).2
  ∧ (get_kernel_enter "alice" "tenant-a" amb1
       (remove_kernel "alice" (run [Acquire "alice" "tenant-a" amb0] (init 1800)))).2
    ≠ 0%nat.
Proof.
  split; [|split].
  - apply (proj1 (one_session_per_user_id 1800 [])). vm_compute. discriminate.
  - apply (proj1 (proj2 (one_session_per_user_id 1800 []))).
    + vm_compute. reflexivity.
    + repeat constructor.
  - apply (proj2 (proj2 (one_session_per_user_id 1800 [Acquire "alice" "tenant-a" amb0]))
             "alice" 0%nat "tenant-a" amb1).
    vm_compute. reflexivity.
Defined.

(** C1, as stated, fails for two principals that share the user id and
    differ in the tenant: both are handed the same object. *)
Lemma same_user_other_tenant_same_session :
  let e1 := get_kernel_enter "alice" "tenant-a" amb0 (init 1800) in
  let e2 := get_kernel_enter "alice" "tenant-b" amb1 e1.1 in
  ("alice", "tenant-a") ≠ ("alice", "tenant-b") ∧ e1.2 = e2.2.
Proof. vm_compute. split; [discriminate | reflexivity]. Qed.

(** C7: when the body of a [get_kernel] block raises, the exception leaves
    the block; if it is a [RuntimeError] or a [ConnectionError] the entry
    of the user id is deleted, the session it referred to is torn down and
    the next acquisition constructs a new object; otherwise the handler
    leaves the pool as the body left it. *)
Theorem fatal_error_evicts_and_propagates {A : Type} (T : Z) (ops mid : list op)
    (uid tid : string) (amb : ambient)
    (body : ref → state → state * (A + exn)) (e : exn) :
  let s := run ops (init T) in
  let entered := get_kernel_enter uid tid amb s in
  let s2 := run mid entered.1 in
  body entered.2 entered.1 = (s2, inr e) →
  let out := get_kernel uid tid amb body s in
  out.2 = inr e
  ∧ (connection_fatal e = true →
       kernels out.1 !! PyStr.strip uid = None
       ∧ (∀ r, kernels s2 !! PyStr.strip uid = Some r →
               is_active <$> objs out.1 !! r = Some false)
       ∧ (∀ tid' amb',
            let again := get_kernel_enter uid tid' amb' out.1 in
            objs out.1 !! again.2 = None
            ∧ objs again.1 !! again.2
              = Some (update_access (utcnow_access amb')
                        (UserKernel_init amb' (PyStr.strip uid) tid'))))
  ∧ (connection_fatal e = false → out.1 = s2).
Proof.
  intros s entered s2 Hbody out.
  assert (Hout : out = (get_kernel_except uid e s2, inr e)).
  { unfold out, get_kernel. fold s. fold entered.
    destruct entered as [s1 r1] eqn:E. simpl in *. by rewrite Hbody. }
  assert (Hi2 : pool_inv s2).
  { apply run_inv. apply get_kernel_enter_spec. apply reachable_inv. }
  rewrite Hout. simpl. split; [done|]. split.
  - intros Hf. unfold get_kernel_except.
    assert (Hexc : isinstance e Exception = true).
    { unfold connection_fatal, isinstance in *. destruct (exc_type e); done. }
    rewrite Hexc, Hf.
    destruct (kernels s2 !! PyStr.strip uid) as [r|] eqn:Hk.
    + destruct (evict_inv s2 (PyStr.strip uid, r) Hi2) as [[_ Hnone] _].
      pose proof (proj1 Hi2 _ _ Hk) as Ho. unfold owners in Ho.
      destruct (objs s2 !! r) as [o|] eqn:Hobj; [|done].
      repeat split.
      * simpl. apply lookup_delete_eq.
      * intros r' [= <-]. simpl. rewrite lookup_alter_eq, Hobj. simpl.
        by rewrite cleanup_inactive.
      * unfold get_kernel_enter. simpl. rewrite lookup_delete_eq. simpl.
        apply Hnone. simpl. lia.
      * unfold get_kernel_enter, set_objs. simpl. rewrite lookup_delete_eq. simpl.
        by rewrite lookup_alter_eq, lookup_insert_eq.
    + repeat split; try done.
      * unfold get_kernel_enter. rewrite Hk. simpl. apply Hi2. lia.
      * unfold get_kernel_enter, set_objs. rewrite Hk. simpl.
        by rewrite lookup_alter_eq, lookup_insert_eq.
  - intros Hf. unfold get_kernel_except. rewrite Hf. by destruct (isinstance e Exception).
Qed.

(** A body that raises [ConnectionResetError]: the exception leaves the
    block and the entry is gone. *)
Lemma fatal_error_evicts_and_propagates_witness :
  let out := get_kernel "alice" "tenant-a" amb0
               (failing_body (Exn ConnectionResetError "reset")) (init 1800) in
  out.2 = inr (Exn ConnectionResetError "reset") ∧ kernels out.1 !! "alice" = None.
Proof.
  pose proof (fatal_error_evicts_and_propagates 1800 [] [] "alice" "tenant-a" amb0
                (failing_body (Exn ConnectionResetError "reset"))
                (Exn ConnectionResetError "reset") eq_refl) as (H1 & H2 & _).
  split; [exact H1 | exact (proj1 (H2 eq_refl))].
Defined.

(** C10: [remove_kernel] for a user id whose trimmed form has no entry
    returns with the pool, dict and objects, exactly as it was. *)
Theorem remove_kernel_absent_noop (uid : string) (s : state) :
  kernels s !! PyStr.strip uid = None → remove_kernel uid s = s.
Proof. intros H. unfold remove_kernel. by rewrite H. Qed.

(** Removing bob from a pool that holds only alice. *)
Lemma remove_kernel_absent_noop_witness :
  remove_kernel " bob " one_session = one_session.
Proof. apply remove_kernel_absent_noop. vm_compute. reflexivity. Defined.

End PoolProofs.

(** ** Normalisation of function results *)
Module SerializeProofs.
Import PyExc PyVal SemanticKernel StreamNotions.

(** Normalisation yields JSON on every value whose [text] attributes are
    JSON already. *)
Lemma serialize_json_encodable v :
  text_is_plain v = true → json_encodable (serialize_function_result v) = true.
Proof.
  induction v as [ | | | | | items IH | entries IH | | ty tx ct vl s IHc IHv]
    using pyval_nested_ind; simpl; try done.
  - intros Hp. rewrite forallb_forall in Hp. apply forallb_forall.
    intros y [x [<- Hx]]%in_map_iff.
    rewrite Forall_forall in IH. apply IH; [by apply list_elem_of_In | by apply Hp].
  - intros Hp. rewrite forallb_forall in Hp. apply forallb_forall.
    intros [k y] [[k' x] [[= <- <-] Hx]]%in_map_iff.
    specialize (Hp _ Hx). simpl in Hp. apply andb_prop in Hp as [Hk Hp].
    rewrite Hk. simpl. rewrite Forall_forall in IH.
    apply (IH (k', x)); [by apply list_elem_of_In | done].
  - destruct tx as [t|]; [done|].
    destruct ct as [c|]; [by apply IHc|].
    destruct vl as [x|]; [by apply IHv|].
    by destruct s.
Qed.

(** Where no [text] attribute is in the way, an object whose [str] raises
    becomes a placeholder, also three lists deep. *)
Lemma unserializable_at_depth_three :
  serialize_function_result
    (PList [PInt 1; PList [PList [PObject "Socket" None None None None]]])
  = PList [PInt 1; PList [PList [PStr "<Unserializable Socket>"]]].
Proof. reflexivity. Qed.

(** C9 at an object whose [text] attribute is not text: the attribute is
    returned as it is, so the result is not JSON, whereas the same value
    under [content] is normalised. *)
Theorem text_attribute_is_not_normalized :
  serialize_function_result reply_with_text = bound_method
  ∧ json_encodable (serialize_function_result reply_with_text) = false
  ∧ serialize_function_result reply_with_content
    = PStr "<bound method ClientResponse.text>"
  ∧ serialize_function_result reply_with_text
    ≠ serialize_function_result bound_method.
Proof. repeat split. discriminate. Qed.

End SerializeProofs.

(** ** Streaming *)
Module StreamProofs.
Import PyExc PyVal SemanticKernel StreamNotions.

Section Dedup.
Variable fmt : pyval → string.











Lemma error_chunk_content e : chunk_content (error_chunk e) ≠ "".
Proof. unfold error_chunk. by destruct (_ && _). Qed.

Lemma error_chunk_calls e : chunk_function_calls (error_chunk e) = [].
Proof. unfold error_chunk. by destruct (_ && _). Qed.






(** C3: when the provider fails with an exception that [except Exception]
    catches, nothing is raised out of the generator; it yields the chunks
    of the elements received so far, then one more chunk whose finish
    reason is [content_filter] if the lower-cased error text contains
    [content] and one of [filter] and [policy], and [error] otherwise, and
    ends. *)
Theorem streaming_failure_yields_one_error_chunk (run : provider_run) :
  (∀ e, failure run = Some e → isinstance e Exception = true) →
  (chat_completion_streaming fmt run).2 = None
  ∧ ∀ e, failure run = Some e →
      let text := PyStr.lower (exc_str e) in
      let blocked := PyStr.contains "content" text
                     && (PyStr.contains "filter" text || PyStr.contains "policy" text) in
      ∃ last,
        (chat_completion_streaming fmt run).1
        = ((chat_completion_streaming fmt
              {| partials := partials run; failure := None |}).1 ++ [last])%list
        ∧ chunk_finish_reason last = Some (if blocked then "content_filter" else "error")
        ∧ chunk_function_calls last = []
        ∧ chunk_role last = "assistant"
        ∧ chunk_content last ≠ "".
Proof.
  intros Hexc. unfold chat_completion_streaming.
  destruct (failure run) as [e|] eqn:Hf; simpl.
  - rewrite (Hexc e eq_refl). simpl. split; [done|].
    intros e' [= <-]. exists (error_chunk e). split; [done|].
    split; [|split; [|split]].
    + unfold error_chunk. by destruct (_ && _).
    + apply error_chunk_calls.
    + unfold error_chunk. by destruct (_ && _).
    + apply error_chunk_content.
  - split; [done|]. intros e He. discriminate He.
Qed.

End Dedup.

(** Three elements that repeat one completed invocation give one chunk. *)
Lemma thrice_repeated_emitted_once :
  chat_completion_streaming format_example thrice
  = ([ {| chunk_content := ""; chunk_function_calls := [weather_call];
          chunk_finish_reason := None; chunk_role := "assistant" |} ], None).
Proof. vm_compute. reflexivity. Qed.



(** A run that fails with a [ValueError] raises nothing. *)
Lemma streaming_failure_yields_one_error_chunk_witness :
  (chat_completion_streaming format_example blocked_run).2 = None.
Proof.
  apply (streaming_failure_yields_one_error_chunk format_example blocked_run).
  intros e [= <-]. vm_compute. reflexivity.
Defined.

(** The chunks of a run rejected by the content policy. *)
Lemma blocked_run_chunks :
  chat_completion_streaming format_example blocked_run
  = ([ {| chunk_content := "Hel"; chunk_function_calls := [];
          chunk_finish_reason := None; chunk_role := "assistant" |};
       {| chunk_content :=
            "This message has been blocked by the content filter. Please try again with different wording.";
          chunk_function_calls := []; chunk_finish_reason := Some "content_filter";
          chunk_role := "assistant" |} ], None).
Proof. vm_compute. reflexivity. Qed.

(** The chunks of a run that loses its connection. *)
Lemma broken_run_chunks :
  chat_completion_streaming format_example broken_run
  = ([ {| chunk_content := "Hel"; chunk_function_calls := [];
          chunk_finish_reason := None; chunk_role := "assistant" |};
       {| chunk_content := "Error: connection reset by peer";
          chunk_function_calls := []; chunk_finish_reason := Some "error";
          chunk_role := "assistant" |} ], None).
Proof. vm_compute. reflexivity. Qed.

(** A cancellation is not caught: it leaves the generator. *)
Lemma cancellation_passes_through :
  chat_completion_streaming format_example
    {| partials := []; failure := Some (Exn CancelledError "") |}
  = ([], Some (Exn CancelledError "")).
Proof. vm_compute. reflexivity. Qed.

End StreamProofs.

(** ** The settings resolver *)
Module SettingsProofs.
Import PyExc PyVal Settings SettingsNotions.

Lemma specificity_weighted r : specificity r = weighted_score r.
Proof.
  unfold specificity, weighted_score, set_dimensions.
  destruct r as [? ? ? ? [o|] [d|] [e|] [a|] ? ?]; reflexivity.
Qed.

Lemma precedes_refl a : precedes a a = true.
Proof. unfold precedes. apply orb_true_iff. right. apply andb_true_iff. lia. Qed.

Lemma precedes_spec a b :
  precedes a b = true
  ↔ (specificity b < specificity a
     ∨ (specificity a = specificity b ∧ updated_at b ≤ updated_at a))%Z.
Proof.
  unfold precedes. rewrite orb_true_iff, andb_true_iff.
  rewrite Z.ltb_lt, Z.eqb_eq, Z.leb_le. tauto.
Qed.

Lemma precedes_trans a b c :
  precedes a b = true → precedes b c = true → precedes a c = true.
Proof. rewrite !precedes_spec. lia. Qed.

Lemma precedes_total a b : precedes a b = false → precedes b a = true.
Proof.
  intros H. apply precedes_spec.
  assert (Hn : ¬ (precedes a b = true)) by (by rewrite H).
  rewrite precedes_spec in Hn. lia.
Qed.

(** The first row of [order_by] is a row of the list, and no row of the
    list comes strictly before it. *)
Lemma order_by_head l :
  match order_by l with
  | [] => l = []
  | h :: _ => h ∈ l ∧ ∀ c, c ∈ l → precedes h c = true
  end.
Proof.
  induction l as [|x l IH]; simpl; [done|].
  fold (order_by l). destruct (order_by l) as [|h t]; simpl.
  - subst l. split; [apply list_elem_of_here|].
    intros c ->%list_elem_of_singleton. apply precedes_refl.
  - destruct IH as [Hh Hmax]. destruct (precedes x h) eqn:E.
    + split; [apply list_elem_of_here|].
      intros c [->|Hc]%elem_of_cons; [apply precedes_refl|].
      eapply precedes_trans; [exact E | by apply Hmax].
    + split; [by apply list_elem_of_further|].
      intros c [->|Hc]%elem_of_cons; [by apply precedes_total | by apply Hmax].
Qed.

(** The row the resolve query returns: a candidate that no candidate
    precedes strictly; none exactly when there is no candidate. *)
Lemma resolve_query_first k org dom env aud rows :
  match head (take 1 (resolve_query k org dom env aud rows)) with
  | Some h =>
      h ∈ rows ∧ candidate k org dom env aud h = true
      ∧ ∀ c, c ∈ rows → candidate k org dom env aud c = true →
             precedes h c = true
  | None => ∀ c, c ∈ rows → candidate k org dom env aud c = false
  end.
Proof.
  unfold resolve_query.
  pose proof (order_by_head (List.filter (candidate k org dom env aud) rows)) as H.
  destruct (order_by (List.filter (candidate k org dom env aud) rows)) as [|h t]; simpl.
  - intros c Hc. destruct (candidate k org dom env aud c) eqn:E; [|done].
    assert (Hin : In c (List.filter (candidate k org dom env aud) rows)).
    { apply filter_In. split; [by apply list_elem_of_In | done]. }
    rewrite H in Hin. done.
  - destruct H as [Hh Hmax].
    apply list_elem_of_In, filter_In in Hh as [Hh Hc].
    split; [by apply list_elem_of_In|]. split; [done|].
    intros c Hin Hcand. apply Hmax, list_elem_of_In, filter_In.
    split; [by apply list_elem_of_In | done].
Qed.



(** The handler's response for the three example rows. *)
Lemma organization_row_resolved :
  (resolve_setting (theme_request (Some "oid-ann"))
     (tables [ann] [] [global_row; environment_row; organization_row])).2
  = Returned {| resp_key := "theme"; resolved_payload := PStr "dark";
                resolved_from := "Organization"; resp_specificity := 2;
                found := true |}.
Proof. vm_compute. reflexivity. Qed.

(** A secret row of higher score is passed over for the global row. *)
Lemma secret_row_is_skipped :
  (resolve_setting (theme_request (Some "oid-ann"))
     (tables [ann] [] [secret_organization_row; global_row])).2
  = Returned {| resp_key := "theme"; resolved_payload := PStr "light";
                resolved_from := "Global"; resp_specificity := 0;
                found := true |}.
Proof. vm_compute. reflexivity. Qed.

(** C2 at an input without candidates: the not-found response is rejected
    by the response model, and the handler answers HTTP 500. *)
Theorem not_found_is_http_500 :
  head (take 1 (resolve_query "theme" None None None None [])) = None
  ∧ SettingsResolveResponse_init "theme" PNone "Default (no setting found)" 0 false
    = inr (Exn ValidationError
             "1 validation error for SettingsResolveResponse: resolved_payload")
  ∧ resolve_setting (theme_request None) (tables [] [] [])
    = ({| logged :=
            [ (WARNING, "No setting found for key 'theme' with oid='None', audience_key='react_admin'");
              (ERROR, "Error resolving setting 'theme': 1 validation error for SettingsResolveResponse: resolved_payload") ];
          audited :=
            [ {| audit_action := "resolve"; audit_resource := "settings_v4";
                 audit_resource_id := "none";
                 audit_details := "Setting 'theme' not found - using default" |} ] |},
       HTTPException 500 "Failed to resolve setting").
Proof. vm_compute. repeat split. Qed.

(** No call of the handler returns a not-found response. *)
Lemma returned_response_is_found req db fx r :
  resolve_setting req db = (fx, Returned r) → found r = true.
Proof.
  unfold resolve_setting.
  destruct (resolve_body req db {| logged := []; audited := [] |}) as [fx' [r'|e]] eqn:E;
    [|intros H; destruct (isinstance e Exception); simplify_eq].
  intros [= <- <-]. revert E. unfold resolve_body, bind, try_except, execute, ret, raise,
    construct, SettingsResolveResponse_init, log, create_audit_log.
  repeat (case_match; simplify_eq; try done); intros E;
    unfold ret, raise in E; by simplify_eq.
Qed.

(** C8 at an input where the audience lookup raises: no warning is logged
    and the handler answers HTTP 500. *)
Theorem audience_lookup_failure_is_http_500 :
  resolve_setting (theme_request (Some "oid-ann")) audience_query_down
  = ({| logged := [ (ERROR, "Error resolving setting 'theme': connection reset by peer") ];
        audited := [] |},
     HTTPException 500 "Failed to resolve setting").
Proof. vm_compute. reflexivity. Qed.

(** The user lookup, on the other hand, may fail: a warning is logged and
    the call goes on as for a caller without user record. *)
Lemma user_lookup_failure_is_tolerated req db e fx :
  truthy (req_oid req) = true →
  user_query_error db = Some e →
  isinstance e Exception = true →
  resolve_body req db fx
  = resolve_body req (without_user_table db)
      {| logged := (logged fx
                    ++ [(WARNING, ("Error fetching user metadata for oid '"
                                   ++ str_opt (req_oid req) ++ "': "
                                   ++ exc_str e)%string)])%list;
         audited := audited fx |}.
Proof.
  intros Ht Hq He. unfold resolve_body, bind. rewrite Ht.
  unfold try_except, bind, execute, raise. rewrite Hq, He. simpl. reflexivity.
Qed.

(** With a failing user query the caller is unscoped: a warning, and the
    global row. *)
Lemma user_lookup_failure_example :
  resolve_setting (theme_request (Some "oid-ann")) user_query_down
  = ({| logged := [ (WARNING, "Error fetching user metadata for oid 'oid-ann': connection reset by peer") ];
        audited :=
          [ {| audit_action := "resolve"; audit_resource := "settings_v4";
               audit_resource_id := "s-1";
               audit_details := "Resolved setting 'theme' from Global" |} ] |},
     Returned {| resp_key := "theme"; resolved_payload := PStr "light";
                 resolved_from := "Global"; resp_specificity := 0;
                 found := true |}).
Proof. vm_compute. reflexivity. Qed.

End SettingsProofs.


(** * Further properties *)

(** ** The session pool, continued *)
Module PoolMore.
Import PyExc KernelManager PoolNotions PoolMoreNotions PoolProofs.

Lemma pool_inv_inj s k1 k2 r :
  pool_inv s → kernels s !! k1 = Some r → kernels s !! k2 = Some r → k1 = k2.
Proof.
  intros [Hk _] H1 H2. apply Hk in H1, H2. congruence.
Qed.

Lemma evict_entry_live s k r :
  pool_inv s → pool_live s → kernels s !! k = Some r → pool_live (evict s (k, r)).
Proof.
  intros Hinv Hlive Hkr k' r'. simpl. rewrite lookup_delete.
  case_decide as Hd; [done|]. intros Hk'.
  destruct (Hlive _ _ Hk') as (o & Ho & Hu & Ha). exists o.
  rewrite lookup_alter_ne; [done|]. intros <-. apply Hd.
  by eapply pool_inv_inj.
Qed.

Lemma foldl_evict_max_idle l s : max_idle_time (foldl evict s l) = max_idle_time s.
Proof. revert s. induction l as [|e l IH]; intros s; simpl; [done|]. by rewrite IH. Qed.

Lemma sweep_live now s :
  pool_inv s → pool_live s → pool_live (_cleanup_idle_kernels now s).
Proof.
  intros Hinv Hlive k r. unfold _cleanup_idle_kernels.
  rewrite foldl_evict_kernels. case_decide as Hin; [done|]. intros Hk.
  destruct (Hlive _ _ Hk) as (o & Ho & Hu & Ha). exists o.
  rewrite foldl_evict_objs. rewrite decide_False; [done|].
  intros ([k' r'] & Heq & Hin')%list_elem_of_fmap. simpl in Heq. subst r'.
  apply Hin. apply list_elem_of_fmap. exists (k', r). split; [|done]. simpl.
  apply elem_of_idle_kernels in Hin' as [_ Hk']. by eapply pool_inv_inj.
Qed.

Lemma get_kernel_enter_live uid tid amb s :
  pool_inv s → pool_live s → pool_live (get_kernel_enter uid tid amb s).1.
Proof.
  intros Hinv Hlive k r. unfold get_kernel_enter, set_objs.
  destruct (kernels s !! PyStr.strip uid) as [r0|] eqn:E; simpl.
  - intros Hk. destruct (Hlive _ _ Hk) as (o & Ho & Hu & Ha).
    rewrite lookup_alter. case_decide; [subst|by exists o].
    rewrite Ho. simpl. by eexists.
  - rewrite lookup_insert. case_decide as Hd.
    + intros [= <-]. rewrite lookup_alter_eq, lookup_insert_eq. simpl.
      eexists. split; [done|]. by split.
    + intros Hk. destruct (Hlive _ _ Hk) as (o & Ho & Hu & Ha). exists o.
      rewrite lookup_alter_ne, lookup_insert_ne; [done| |];
        intros <-; destruct Hinv as [_ Hn]; rewrite Hn in Ho by lia; done.
Qed.

Lemma exec_live s o : pool_inv s → pool_live s → pool_live (exec s o).
Proof.
  intros Hinv Hlive. destruct o; simpl.
  - by apply get_kernel_enter_live.
  - unfold get_kernel_except.
    destruct (isinstance e Exception); [|done].
    destruct (connection_fatal e); [|done].
    destruct (kernels s !! PyStr.strip uid) eqn:E; [|done]. by apply evict_entry_live.
  - unfold remove_kernel.
    destruct (kernels s !! PyStr.strip uid) eqn:E; [|done]. by apply evict_entry_live.
  - by apply sweep_live.
  - intros k r. simpl. by rewrite lookup_empty.
Qed.

Lemma run_live ops s : pool_inv s → pool_live s → pool_live (run ops s).
Proof.
  unfold run. revert s. induction ops as [|o ops IH]; intros s Hinv Hlive; simpl; [done|].
  apply IH; [by apply exec_inv | by apply exec_live].
Qed.

(** X1.  In every state the pool can reach, each entry of the dict refers
    to an active session constructed for that key, and no two entries refer to
    the same session. *)
Theorem pooled_sessions_are_live (T : Z) (ops : list op) :
  let s := run ops (init T) in
  (∀ k r, kernels s !! k = Some r →
          ∃ o, objs s !! r = Some o ∧ user_id o = k ∧ is_active o = true)
  ∧ (∀ k1 k2 r, kernels s !! k1 = Some r → kernels s !! k2 = Some r → k1 = k2).
Proof.
  intros s. split.
  - apply run_live; [apply init_inv|]. intros k r. simpl. by rewrite lookup_empty.
  - intros k1 k2 r. apply pool_inv_inj, reachable_inv.
Qed.

Lemma pooled_sessions_are_live_witness :
  ∃ o, objs two_sessions !! 1%nat = Some o ∧ user_id o = "bob" ∧ is_active o = true.
Proof.
  apply (proj1 (pooled_sessions_are_live 1800
                  [Acquire "alice" "tenant-a" amb0; Acquire "bob" "tenant-b" amb1])).
  vm_compute. reflexivity.
Defined.

Lemma foldl_alter_cleanup_lookup (l : list (string * ref)) (m : gmap ref UserKernel) r :
  foldl (λ o entry, alter cleanup entry.2 o) m l !! r
  = if decide (r ∈ l.*2) then cleanup <$> m !! r else m !! r.
Proof.
  revert m. induction l as [|[u' r'] l IH]; intros m.
  - rewrite decide_False; [done | apply not_elem_of_nil].
  - rewrite fmap_cons. cbn [foldl snd]. rewrite IH, lookup_alter.
    assert (Hid : cleanup <$> (cleanup <$> m !! r) = cleanup <$> m !! r).
    { destruct (m !! r); simpl; by rewrite ?cleanup_idemp. }
    destruct (decide (r ∈ r' :: l.*2)) as [Hin|Hnin].
    + apply elem_of_cons in Hin as [->|Hin].
      * rewrite (decide_True (P := r' = r')) by done.
        destruct (decide (r' ∈ l.*2)); [by rewrite Hid | done].
      * rewrite (decide_True (P := r ∈ l.*2)) by done.
        destruct (decide (r' = r)) as [->|]; [by rewrite Hid | done].
    + apply not_elem_of_cons in Hnin as [Hne Hnin].
      rewrite (decide_False (P := r ∈ l.*2)) by done.
      by rewrite decide_False by congruence.
Qed.

(** X2.  [stop] empties the dict; every session that was in it is torn down,
    and every other object is left as it was. *)
Theorem stop_tears_down_all (s : state) :
  kernels (stop s) = ∅
  ∧ (∀ k r o, kernels s !! k = Some r → objs s !! r = Some o →
              objs (stop s) !! r = Some (cleanup o) ∧ is_active (cleanup o) = false)
  ∧ (∀ r, (∀ k, kernels s !! k ≠ Some r) → objs (stop s) !! r = objs s !! r).
Proof.
  split; [done|]. split.
  - intros k r o Hk Ho. simpl. rewrite foldl_alter_cleanup_lookup.
    rewrite decide_True, Ho; [by rewrite cleanup_inactive|].
    apply list_elem_of_fmap. exists (k, r). split; [done|].
    by apply elem_of_map_to_list.
  - intros r Hr. simpl. rewrite foldl_alter_cleanup_lookup.
    rewrite decide_False; [done|].
    intros ([k r'] & Heq & Hin)%list_elem_of_fmap. simpl in Heq. subst r'.
    apply elem_of_map_to_list in Hin. by apply (Hr k).
Qed.

Lemma stop_tears_down_all_witness :
  objs (stop two_sessions) !! 0%nat
  = Some (cleanup (update_access 0 (UserKernel_init amb0 "alice" "tenant-a"))).
Proof.
  apply (proj1 (proj2 (stop_tears_down_all two_sessions)) "alice" 0%nat
           (update_access 0 (UserKernel_init amb0 "alice" "tenant-a")));
    vm_compute; reflexivity.
Defined.

(** X3.  A second sweep at the same time changes nothing: the first one
    leaves no session idle. *)
Theorem idle_sweep_idempotent (now : Z) (s : state) :
  _cleanup_idle_kernels now (_cleanup_idle_kernels now s)
  = _cleanup_idle_kernels now s.
Proof.
  set (s' := _cleanup_idle_kernels now s).
  assert (Hnil : idle_kernels now s' = []).
  { destruct (idle_kernels now s') as [|[u r] l] eqn:E; [done|]. exfalso.
    assert (Hin : (u, r) ∈ idle_kernels now s') by (rewrite E; apply list_elem_of_here).
    apply elem_of_idle_kernels in Hin as [Hidle Hin].
    unfold s', _cleanup_idle_kernels in Hin.
    rewrite foldl_evict_kernels in Hin. case_decide as Hu; [done|].
    apply Hu. apply list_elem_of_fmap. exists (u, r). split; [done|].
    apply elem_of_idle_kernels. split; [|done].
    unfold idle in *. unfold s', _cleanup_idle_kernels in Hidle. simpl in *.
    rewrite foldl_evict_objs, foldl_evict_max_idle in Hidle.
    destruct (objs s !! r) as [o|]; [|by case_decide].
    case_decide; simpl in Hidle; [|done].
    unfold cleanup in Hidle. by destruct (is_active o). }
  unfold _cleanup_idle_kernels at 1. fold s'. by rewrite Hnil.
Qed.

(** X4.  Acquiring an existing session counts the access and stamps the time on
    that object only; the calls that are not acquisitions leave every
    object as it is, up to its liveness flag. *)
Theorem access_bookkeeping (s : state) :
  (∀ uid tid amb r o,
     kernels s !! PyStr.strip uid = Some r → objs s !! r = Some o →
     let e := get_kernel_enter uid tid amb s in
     e.2 = r
     ∧ objs e.1 !! r = Some (update_access (utcnow_access amb) o)
     ∧ access_count (update_access (utcnow_access amb) o) = (access_count o + 1)%Z
     ∧ last_accessed (update_access (utcnow_access amb) o) = utcnow_access amb
     ∧ ∀ r', r' ≠ r → objs e.1 !! r' = objs s !! r')
  ∧ (∀ c r o,
     is_acquire c = false → objs s !! r = Some o →
     objs (exec s c) !! r = Some o ∨ objs (exec s c) !! r = Some (cleanup o)).
Proof.
  split.
  - intros uid tid amb r o Hk Ho e. subst e.
    unfold get_kernel_enter, set_objs. rewrite Hk. simpl.
    repeat split; try done.
    + by rewrite lookup_alter_eq, Ho.
    + intros r' Hne. by rewrite lookup_alter_ne.
  - intros c r o Hc Ho. destruct c; simpl in *; try done.
    + unfold get_kernel_except.
      destruct (isinstance e Exception); [|by left].
      destruct (connection_fatal e); [|by left].
      destruct (kernels s !! PyStr.strip uid) as [r0|]; [|by left]. simpl.
      rewrite lookup_alter. case_decide; [subst; right|left]; by rewrite ?Ho.
    + unfold remove_kernel.
      destruct (kernels s !! PyStr.strip uid) as [r0|]; [|by left]. simpl.
      rewrite lookup_alter. case_decide; [subst; right|left]; by rewrite ?Ho.
    + unfold _cleanup_idle_kernels. rewrite foldl_evict_objs.
      case_decide; [right|left]; by rewrite ?Ho.
    + rewrite foldl_alter_cleanup_lookup.
      case_decide; [right|left]; by rewrite ?Ho.
Qed.

Lemma access_bookkeeping_witness :
  access_count (update_access 7 alice_kernel) = 2%Z
  ∧ objs (exec two_sessions (Remove "bob")) !! 0%nat = Some alice_kernel.
Proof.
  split.
  - exact (proj1 (proj2 (proj2
      (proj1 (access_bookkeeping one_session) "alice" "tenant-a"
         {| uuid4 := "x"; utcnow_created := 7; utcnow_first := 7; utcnow_access := 7 |}
         0%nat alice_kernel eq_refl eq_refl)))).
  - destruct (proj2 (access_bookkeeping two_sessions) (Remove "bob") 0%nat alice_kernel
                eq_refl eq_refl) as [H|H]; [exact H|].
    vm_compute in H. discriminate H.
Defined.

(** X5.  Removing one user's session, by [remove_kernel] or after a fatal
    error, leaves the entries and the session objects of all other users
    untouched. *)
Theorem eviction_leaves_others (T : Z) (ops : list op) (uid : string) (e : exn) :
  let s := run ops (init T) in
  ∀ k r, k ≠ PyStr.strip uid → kernels s !! k = Some r →
    (kernels (remove_kernel uid s) !! k = Some r
     ∧ objs (remove_kernel uid s) !! r = objs s !! r)
    ∧ (kernels (get_kernel_except uid e s) !! k = Some r
       ∧ objs (get_kernel_except uid e s) !! r = objs s !! r).
Proof.
  intros s k r Hne Hk.
  assert (Hinv : pool_inv s) by apply reachable_inv.
  assert (Hev : ∀ r0, kernels s !! PyStr.strip uid = Some r0 →
            kernels (evict s (PyStr.strip uid, r0)) !! k = Some r
            ∧ objs (evict s (PyStr.strip uid, r0)) !! r = objs s !! r).
  { intros r0 Hr0. simpl. rewrite lookup_delete_ne by done. split; [done|].
    rewrite lookup_alter_ne; [done|]. intros ->. apply Hne. by eapply pool_inv_inj. }
  split.
  - unfold remove_kernel. destruct (kernels s !! PyStr.strip uid) eqn:E; auto.
  - unfold get_kernel_except.
    destruct (isinstance e Exception); [|done].
    destruct (connection_fatal e); [|done].
    destruct (kernels s !! PyStr.strip uid) eqn:E; auto.
Qed.

Lemma eviction_leaves_others_witness :
  kernels (remove_kernel " bob" two_sessions) !! "alice" = Some 0%nat.
Proof.
  apply (eviction_leaves_others 1800
           [Acquire "alice" "tenant-a" amb0; Acquire "bob" "tenant-b" amb1]
           " bob" (Exn RuntimeError "") "alice" 0%nat).
  - vm_compute. discriminate.
  - vm_compute. reflexivity.
Defined.

End PoolMore.

(** ** Normalisation and streaming, continued *)
Module StreamMore.
Import PyExc PyVal SemanticKernel StreamNotions StreamMoreNotions SerializeProofs.

Lemma serialize_json_id (v : pyval) :
  json_encodable v = true → serialize_function_result v = v.
Proof.
  induction v as [ | | | | | items IH | entries IH | | ty tx ct vl s IHc IHv]
    using pyval_nested_ind; simpl; try done.
  - intros Hj. f_equal. rewrite forallb_forall in Hj.
    induction IH as [|x l Hx _ IHl]; simpl; [done|].
    rewrite Hx by (apply Hj; by left). f_equal. apply IHl.
    intros y Hy. apply Hj. by right.
  - intros Hj. f_equal. rewrite forallb_forall in Hj.
    induction IH as [|[k x] l Hx _ IHl]; simpl; [done|].
    simpl in Hx. rewrite Hx.
    + f_equal. apply IHl. intros y Hy. apply Hj. by right.
    + specialize (Hj (k, x) (or_introl eq_refl)). simpl in Hj.
      by apply andb_prop in Hj as [_ Hj].
Qed.

(** X6.  [serialize_function_result] returns a value that is JSON already
    as it is; and on a value whose [text] attributes are JSON and whose
    dict keys are JSON keys its result is JSON, so that normalising twice
    is normalising once. *)
Theorem serialize_fixes_json (v : pyval) :
  (json_encodable v = true → serialize_function_result v = v)
  ∧ (text_is_plain v = true →
     json_encodable (serialize_function_result v) = true
     ∧ serialize_function_result (serialize_function_result v)
       = serialize_function_result v).
Proof.
  split; [apply serialize_json_id|]. intros Hp.
  pose proof (serialize_json_encodable v Hp) as Hj.
  split; [done | by apply serialize_json_id].
Qed.

Lemma serialize_fixes_json_witness :
  serialize_function_result nested_json = nested_json
  ∧ serialize_function_result (serialize_function_result mixed_result)
    = serialize_function_result mixed_result.
Proof.
  split.
  - apply (proj1 (serialize_fixes_json nested_json)). vm_compute. reflexivity.
  - apply (proj2 (serialize_fixes_json mixed_result)). vm_compute. reflexivity.
Defined.

Lemma append_empty_r (s : string) : s ++ "" = s.
Proof.
  induction s as [|a s IH]; [done|].
  change (String a (s ++ "") = String a s). by rewrite IH.
Qed.

Lemma append_assoc (s1 s2 s3 : string) : (s1 ++ s2) ++ s3 = s1 ++ (s2 ++ s3).
Proof.
  induction s1 as [|a s1 IH]; [done|].
  change (String a ((s1 ++ s2) ++ s3) = String a (s1 ++ (s2 ++ s3))). by rewrite IH.
Qed.

Section Relay.
Variable fmt : pyval → string.

Lemma on_message_relay sent sm :
  joined (chunk_content <$> (on_message fmt sent sm).1) = message_text sm
  ∧ ∀ c, c ∈ (on_message fmt sent sm).1 →
      ∃ m, sm = Some m ∧ chunk_content c = getattr (content m) ""
           ∧ chunk_finish_reason c = finish_reason m
           ∧ chunk_role c = "assistant".
Proof.
  destruct sm as [m|]; simpl; [|split; [done | intros c []%elem_of_nil]].
  destruct (unique_function_calls fmt sent (collect_function_calls m)) as [u sent'].
  assert (Hfr : (if bool_decide (finish_reason m = Some "tool_calls")
                    && negb (bool_decide (u = []))
                 then Some "tool_calls" else finish_reason m) = finish_reason m).
  { case_bool_decide as Hf; simpl; [|done]. by destruct (negb _). }
  rewrite Hfr.
  destruct (content m) as [c|] eqn:Ec; simpl.
  - destruct (decide (c = "")) as [->|Hc].
    + rewrite bool_decide_eq_true_2 by done. simpl.
      destruct (negb (bool_decide (u = []))); simpl.
      * split; [done|]. intros x Hx. apply list_elem_of_singleton in Hx as ->.
        exists m. by rewrite Ec.
      * split; [done | intros x []%elem_of_nil].
    + rewrite bool_decide_eq_false_2 by done. simpl. split.
      * unfold joined. simpl. apply append_empty_r.
      * intros x Hx. apply list_elem_of_singleton in Hx as ->.
        exists m. by rewrite Ec.
  - destruct (negb (bool_decide (u = []))); simpl.
    + split; [done|]. intros x Hx. apply list_elem_of_singleton in Hx as ->.
      exists m. by rewrite Ec.
    + split; [done | intros x []%elem_of_nil].
Qed.

Lemma joined_app l1 l2 : joined (l1 ++ l2) = joined l1 ++ joined l2.
Proof.
  unfold joined. induction l1 as [|x l1 IH]; simpl; [done|].
  by rewrite IH, append_assoc.
Qed.

(** X7.  The loop relays the provider's text: the contents of the chunks,
    one after the other, are the contents of the elements, one after the
    other; every chunk carries the content and the finish reason of the
    element it was made for, under the role [assistant]; and there is at
    most one chunk per element. *)
Theorem stream_relays_elements (ms : list (option stream_message)) (sent : gset string) :
  joined (chunk_content <$> stream_loop fmt sent ms) = joined (message_text <$> ms)
  ∧ (∀ c, c ∈ stream_loop fmt sent ms →
       ∃ m, Some m ∈ ms ∧ chunk_content c = getattr (content m) ""
            ∧ chunk_finish_reason c = finish_reason m
            ∧ chunk_role c = "assistant")
  ∧ (List.length (stream_loop fmt sent ms) ≤ List.length ms)%nat.
Proof.
  revert sent. induction ms as [|sm ms IH]; intros sent.
  - simpl. split; [done|]. split; [intros c []%elem_of_nil | done].
  - assert (Hloop : stream_loop fmt sent (sm :: ms)
                    = ((on_message fmt sent sm).1
                       ++ stream_loop fmt (on_message fmt sent sm).2 ms)%list).
    { simpl. by destruct (on_message fmt sent sm). }
    rewrite Hloop. destruct (on_message_relay sent sm) as [Ht Hc].
    destruct (IH (on_message fmt sent sm).2) as (IHt & IHc & IHl).
    split; [|split].
    + rewrite fmap_app, joined_app, Ht, IHt. done.
    + intros c [Hin|Hin]%elem_of_app.
      * destruct (Hc c Hin) as (m & -> & ?). exists m. split; [left|done].
      * destruct (IHc c Hin) as (m & Hm & ?). exists m. split; [by right|done].
    + rewrite length_app. simpl.
      assert (List.length (on_message fmt sent sm).1 ≤ 1)%nat; [|lia].
      destruct sm as [m|]; simpl; [|lia].
      destruct (unique_function_calls fmt sent (collect_function_calls m)).
      destruct (_ || _); simpl; lia.
Qed.

End Relay.

Lemma stream_relays_elements_witness :
  ∃ m, Some m ∈ talk
       ∧ getattr (content m) "" = "lo" ∧ finish_reason m = Some "stop".
Proof.
  destruct (proj1 (proj2 (stream_relays_elements format_example talk ∅))
              {| chunk_content := "lo"; chunk_function_calls := [];
                 chunk_finish_reason := Some "stop"; chunk_role := "assistant" |})
    as (m & Hin & Hc & Hf & _).
  - vm_compute. apply list_elem_of_further, list_elem_of_further, list_elem_of_here.
  - exists m. simpl in Hc, Hf. by split.
Defined.

End StreamMore.

(** ** The service *)
Module AIServiceProofs.
Import PyExc PyVal KernelManager PoolNotions SemanticKernel StreamNotions.
Import AIService ChatRouter AIServiceNotions.

Lemma length_take n s : (String.length (take n s) ≤ n)%nat.
Proof.
  revert s. induction n as [|n IH]; intros [|a s]; simpl; try lia.
  specialize (IH s). lia.
Qed.

Lemma length_lstrip s : (String.length (PyStr.lstrip s) ≤ String.length s)%nat.
Proof.
  induction s as [|a s IH]; simpl; [lia|]. destruct (PyStr.isspace a); simpl; lia.
Qed.

Lemma length_rstrip s : (String.length (PyStr.rstrip s) ≤ String.length s)%nat.
Proof.
  induction s as [|a s IH]; simpl; [lia|].
  destruct (PyStr.rstrip s); [destruct (PyStr.isspace a)|]; simpl in *; lia.
Qed.

Lemma length_strip s : (String.length (PyStr.strip s) ≤ String.length s)%nat.
Proof.
  unfold PyStr.strip. pose proof (length_rstrip (PyStr.lstrip s)).
  pose proof (length_lstrip s). lia.
Qed.

Lemma title_fallback_length msgs t :
  title_fallback msgs = inl t → (String.length t ≤ 50)%nat.
Proof.
  unfold title_fallback. destruct (first_user_msg msgs) as [[m|]|e]; try done.
  - case_bool_decide; [intros [= <-]; simpl; lia|].
    destruct (getitem m "content") as [c|e]; [|done]. intros Heq.
    assert (t = PyStr.strip (take 50 c)) as -> by congruence.
    pose proof (length_strip (take 50 c)). pose proof (length_take 50 c). lia.
  - intros [= <-]. simpl. lia.
Qed.

Lemma conversation_text_ok msgs acc :
  Forall well_formed msgs → ∃ text, conversation_text acc msgs = inl text.
Proof.
  intros H. revert acc. induction H as [|m msgs [[r Hr] _] _ IH]; intros acc; simpl.
  - by eexists.
  - unfold getitem. rewrite Hr. by destruct (_ <? _)%nat.
Qed.

Lemma title_fallback_ok msgs :
  Forall well_formed msgs → ∃ t, title_fallback msgs = inl t.
Proof.
  intros H. unfold title_fallback.
  assert (Hf : (first_user_msg msgs = inl None)
               ∨ ∃ m, first_user_msg msgs = inl (Some m) ∧ well_formed m).
  { induction H as [|m msgs Hm _ IH]; simpl; [by left|].
    destruct Hm as [[r Hr] Hc]. unfold getitem. rewrite Hr.
    case_bool_decide; [|done]. right. exists m. by split. }
  destruct Hf as [->|(m & -> & _ & [c Hc])]; [by eexists|].
  case_bool_decide; [by eexists|]. unfold getitem. rewrite Hc. by eexists.
Qed.

(** X10.  [generate_title] returns at most 50 characters; for messages that have
    a role and a content it returns a title whenever the provider answers
    or fails with an [Exception]; and a [RuntimeError] or
    [ConnectionError] of the provider still costs the user the pooled
    session, although a title is returned. *)
Theorem generate_title_bounded_and_total (provider : string → option string + exn)
    (uid tid : string) (amb : ambient) (msgs : list message) (s : state) :
  let out := generate_title provider uid tid amb msgs s in
  (∀ t, out.2 = inl t → (String.length t ≤ 50)%nat)
  ∧ (Forall well_formed msgs →
     (∀ p e, provider p = inr e → isinstance e Exception = true) →
     ∃ t, out.2 = inl t)
  ∧ (∀ text e, conversation_text "" msgs = inl text →
       provider (title_prompt text) = inr e → connection_fatal e = true →
       kernels out.1 !! PyStr.strip uid = None).
Proof.
  intros out. unfold out, generate_title, get_kernel.
  destruct (get_kernel_enter uid tid amb s) as [s1 r] eqn:Hent.
  split; [|split].
  - intros t. destruct (conversation_text "" msgs) as [text|e]; [|done].
    destruct (provider (title_prompt text)) as [c|e]; cbn -[take PyStr.strip isinstance get_kernel_except title_fallback].
    + intros Heq.
      assert (t = take 50 (PyStr.strip (strip_chars is_quote (response_text c))))
        as -> by congruence.
      apply length_take.
    + destruct (isinstance e Exception); simpl; [|done]. apply title_fallback_length.
  - intros Hwf Hexc.
    destruct (conversation_text_ok msgs "" Hwf) as [text ->].
    destruct (provider (title_prompt text)) as [c|e] eqn:Hp; simpl; [by eexists|].
    rewrite (Hexc _ _ Hp). simpl. by apply title_fallback_ok.
  - intros text e -> -> Hf. simpl.
    assert (Hexc : isinstance e Exception = true).
    { unfold connection_fatal, isinstance in *. destruct (exc_type e); done. }
    rewrite Hexc. simpl. unfold get_kernel_except. rewrite Hexc, Hf.
    destruct (kernels s1 !! PyStr.strip uid) eqn:E; [|done].
    simpl. apply lookup_delete_eq.
Qed.

Lemma generate_title_bounded_and_total_witness :
  (∃ t, (generate_title unreachable_provider "alice" "tenant-a" amb0 small_talk
           (init 1800)).2 = inl t)
  ∧ (generate_title titled "alice" "tenant-a" amb0 small_talk (init 1800)).2
    = inl "Weather in Oslo".
Proof.
  split.
  - apply (generate_title_bounded_and_total unreachable_provider "alice" "tenant-a"
             amb0 small_talk (init 1800)).
    + unfold small_talk.
      apply Forall_cons_2; [split; eexists; vm_compute; reflexivity|].
      apply Forall_cons_2; [split; eexists; vm_compute; reflexivity|].
      apply Forall_nil_2.
    + intros p e [= <-]. reflexivity.
  - vm_compute. reflexivity.
Defined.

(** The title after a broken connection is the head of the first user
    message, trimmed. *)
Lemma fallback_title_example :
  (generate_title unreachable_provider "alice" "tenant-a" amb0 small_talk
     (init 1800)).2
  = inl "What is the weather in Oslo today?".
Proof. vm_compute. reflexivity. Qed.

Lemma service_stream (fmt : pyval → string) (uid tid : string)
    (amb : ambient) (mid : list op) (provider : provider_run) (s : state) :
  chat_completion_streaming fmt uid tid amb mid provider s
  = (run mid (get_kernel_enter uid tid amb s).1,
     SemanticKernel.chat_completion_streaming fmt provider).
Proof.
  unfold chat_completion_streaming, get_kernel, SemanticKernel.chat_completion_streaming.
  destruct (get_kernel_enter uid tid amb s) as [s1 r].
  destruct (failure provider) as [e|]; [|done].
  destruct (isinstance e Exception) eqn:He; [done|]. simpl.
  unfold get_kernel_except. by rewrite He.
Qed.

(** X8.  Whatever the provider does while streaming, the [get_kernel] block
    around the stream never evicts the session: the pool is left as the
    entry and the other tasks leave it, so that the session acquired is
    still pooled when no other task removes it; and the chunks and the
    exception are those of the kernel's generator. *)
Theorem streaming_never_evicts (fmt : pyval → string) (uid tid : string)
    (amb : ambient) (mid : list op) (provider : provider_run) (s : state) :
  let out := chat_completion_streaming fmt uid tid amb mid provider s in
  out.1 = run mid (get_kernel_enter uid tid amb s).1
  ∧ out.2 = SemanticKernel.chat_completion_streaming fmt provider
  ∧ (mid = [] →
     kernels out.1 !! PyStr.strip uid = Some (get_kernel_enter uid tid amb s).2).
Proof.
  intros out. unfold out. rewrite service_stream. simpl.
  split; [done|]. split; [done|]. intros ->. unfold run. simpl.
  unfold get_kernel_enter, set_objs.
  destruct (kernels s !! PyStr.strip uid) eqn:E; simpl; [done|].
  apply lookup_insert_eq.
Qed.

Lemma streaming_never_evicts_witness :
  kernels (chat_completion_streaming format_example "alice" "tenant-a" amb0 []
             broken_run (init 1800)).1 !! "alice" = Some 0%nat.
Proof.
  apply (proj2 (proj2 (streaming_never_evicts format_example "alice" "tenant-a" amb0 []
                         broken_run (init 1800)))).
  reflexivity.
Defined.

Lemma chat_history_spoken msgs :
  Forall well_formed msgs → chat_history msgs = inl (omap spoken msgs).
Proof.
  induction 1 as [|m msgs [[role Hr] [c Hc]] _ IH]; [done|].
  cbn [chat_history omap list_omap]. unfold getitem, spoken. rewrite Hr, Hc, IH.
  destruct (decide (role = "user" ∨ role = "assistant")) as [[->| ->]|Hn].
  - done.
  - done.
  - rewrite !bool_decide_eq_false_2; [done| |];
      intros ->; apply Hn; first [by left | by right].
Qed.

Lemma with_system_message_prompt system_message msgs :
  with_system_message system_message (omap spoken msgs) = prompt system_message msgs.
Proof.
  unfold with_system_message, prompt. destruct system_message as [m|]; [|done].
  case_bool_decide; by case_decide.
Qed.

(** X9.  For messages that have a role and a content, in the text path the
    provider is asked with the user and assistant messages, in order,
    after the system message if there is a non-empty one, and with
    nothing else; an exception of the provider reaches the caller, and a
    [RuntimeError] or [ConnectionError] evicts the session; an answer is
    returned as text, the empty text for no content, and leaves the
    session pooled. *)
Theorem text_completion_outcomes
    (provider : list (string * string) → option string + exn)
    (uid tid : string) (amb : ambient) (system_message : option string)
    (msgs : list message) (s : state) :
  Forall well_formed msgs →
  let out := chat_completion_text provider uid tid amb system_message msgs s in
  (∀ e, provider (prompt system_message msgs) = inr e →
        out.2 = inr e
        ∧ (connection_fatal e = true → kernels out.1 !! PyStr.strip uid = None))
  ∧ (∀ c, provider (prompt system_message msgs) = inl c →
        out.2 = inl (default "" c)
        ∧ out.1 = (get_kernel_enter uid tid amb s).1
        ∧ kernels out.1 !! PyStr.strip uid = Some (get_kernel_enter uid tid amb s).2).
Proof.
  intros Hwf out. unfold out, chat_completion_text, get_kernel.
  destruct (get_kernel_enter uid tid amb s) as [s1 r] eqn:Hent.
  rewrite (chat_history_spoken msgs Hwf), with_system_message_prompt.
  split.
  - intros e ->. simpl. split; [done|]. intros Hf.
    assert (Hexc : isinstance e Exception = true).
    { unfold connection_fatal, isinstance in *. destruct (exc_type e); done. }
    unfold get_kernel_except. rewrite Hexc, Hf.
    destruct (kernels s1 !! PyStr.strip uid) eqn:E; [|done].
    simpl. apply lookup_delete_eq.
  - intros c ->. simpl. repeat split.
    assert (Hs : s1 = (get_kernel_enter uid tid amb s).1) by (by rewrite Hent).
    assert (Hr : r = (get_kernel_enter uid tid amb s).2) by (by rewrite Hent).
    rewrite Hs, Hr. clear. unfold get_kernel_enter, set_objs.
    destruct (kernels s !! PyStr.strip uid) eqn:E; simpl; [done|].
    apply lookup_insert_eq.
Qed.

(** A provider that breaks on exactly the history of the system message
    and the three user and assistant messages, without the tool message,
    breaks in the call, and the session is evicted. *)
Lemma text_completion_outcomes_witness :
  kernels (chat_completion_text
             (breaks_on [("system", "Be brief."); ("user", "What is the weather in Oslo?");
                         ("assistant", "It is 4 C in Oslo."); ("user", "And tomorrow?")])
             "alice" "tenant-a" amb0 (Some "Be brief.") with_tool (init 1800)).1
  !! "alice" = None.
Proof.
  apply (proj1 (text_completion_outcomes
                  (breaks_on [("system", "Be brief."); ("user", "What is the weather in Oslo?");
                              ("assistant", "It is 4 C in Oslo."); ("user", "And tomorrow?")])
                  "alice" "tenant-a" amb0 (Some "Be brief.") with_tool (init 1800)
                  ltac:(repeat (apply Forall_cons_2;
                                  [split; eexists; vm_compute; reflexivity|]);
                        apply Forall_nil_2))
           (Exn ConnectionResetError "connection reset by peer") eq_refl);
    reflexivity.
Defined.

Section Events.
Variable fmt : pyval → string.
Variable terr : chunk → string.

Lemma relay_spec chunks raised :
  (Forall (encodable terr) chunks
   ∧ relay terr chunks raised
     = (((Data <$> chunks) ++ (if raised is None then [Done] else []))%list, raised))
  ∨ (∃ pre c rest e,
       chunks = (pre ++ c :: rest)%list ∧ Forall (encodable terr) pre
       ∧ dumps_error terr c = Some e
       ∧ relay terr chunks raised = (Data <$> pre, Some e)).
Proof.
  induction chunks as [|c chunks IH].
  - left. split; [done|]. simpl. by destruct raised.
  - cbn [relay]. destruct (dumps_error terr c) as [e|] eqn:Hc.
    + right. exists [], c, chunks, e. by repeat split.
    + destruct IH as [[Hall ->]|(pre & c' & rest & e & -> & Hpre & Hc' & ->)].
      * left. split; [by constructor|]. done.
      * right. exists (c :: pre), c', rest, e. repeat split; try done.
        by constructor.
Qed.

Lemma dumps_error_is_exception c e :
  dumps_error terr c = Some e → isinstance e Exception = true.
Proof. unfold dumps_error. case_match; [done|]. by intros [= <-]. Qed.

(** X11.  The body of the chat response ends with exactly one [DONE]
    event whenever the provider answers or fails with an [Exception]: the
    events before it are the chunks of the kernel's generator, in order,
    up to the first one [json.dumps] cannot encode, which is replaced by
    one error chunk; no exception leaves the generator.  A run that ends
    with an exception that is no [Exception] has no [DONE] event. *)
Theorem chat_stream_ends_with_done (uid tid : string) (amb : ambient)
    (mid : list op) (run : provider_run) (s : state) :
  let chunks := (SemanticKernel.chat_completion_streaming fmt run).1 in
  let out := (response_body fmt terr uid tid amb mid run s).2 in
  ((∀ e, failure run = Some e → isinstance e Exception = true) →
   out.2 = None
   ∧ ∃ sent, out.1 = ((Data <$> sent) ++ [Done])%list
       ∧ ((sent = chunks ∧ Forall (encodable terr) chunks)
          ∨ ∃ pre c rest e,
              chunks = (pre ++ c :: rest)%list ∧ Forall (encodable terr) pre
              ∧ dumps_error terr c = Some e
              ∧ sent = (pre ++ [ChatRouter.error_chunk e])%list))
  ∧ (∀ e, failure run = Some e → isinstance e Exception = false →
          Forall (encodable terr) chunks →
          out = (Data <$> chunks, Some e)).
Proof.
  intros chunks out.
  set (raised := (SemanticKernel.chat_completion_streaming fmt run).2).
  assert (Hout : out = generate_stream terr chunks raised).
  { unfold out, response_body. rewrite service_stream. unfold chunks, raised.
    by destruct (SemanticKernel.chat_completion_streaming fmt run). }
  rewrite Hout. clear out Hout. set (out := generate_stream terr chunks raised).
  assert (Hhandler : ∀ pre c rest e,
            chunks = (pre ++ c :: rest)%list → Forall (encodable terr) pre →
            dumps_error terr c = Some e →
            relay terr chunks raised = (Data <$> pre, Some e) →
            out = (((Data <$> (pre ++ [ChatRouter.error_chunk e])) ++ [Done])%list, None)).
  { intros pre c rest e _ _ Hc Hr. unfold out, generate_stream. rewrite Hr.
    rewrite (dumps_error_is_exception _ _ Hc).
    change (dumps_error terr (ChatRouter.error_chunk e)) with (@None exn).
    by rewrite fmap_app, <- app_assoc. }
  split.
  - intros Hexc.
    assert (Hraised : raised = None).
    { unfold raised, SemanticKernel.chat_completion_streaming.
      destruct (failure run) as [e|]; [|done]. by rewrite (Hexc e eq_refl). }
    destruct (relay_spec chunks raised) as [[Hall Hr]|(pre & c & rest & e & Hch & Hpre & Hc & Hr)].
    + unfold out, generate_stream. rewrite Hr, Hraised. simpl. split; [done|].
      exists chunks. split; [done|]. by left.
    + rewrite (Hhandler pre c rest e Hch Hpre Hc Hr). simpl. split; [done|].
      exists (pre ++ [ChatRouter.error_chunk e])%list. split; [done|].
      right. by exists pre, c, rest, e.
  - intros e Hf He Hall.
    assert (Hraised : raised = Some e).
    { unfold raised, SemanticKernel.chat_completion_streaming. by rewrite Hf, He. }
    destruct (relay_spec chunks raised) as [[_ Hr]|(pre & c & rest & e' & Hch & Hpre & Hc & Hr)].
    + unfold out, generate_stream. rewrite Hr, Hraised, He. simpl.
      by rewrite app_nil_r.
    + exfalso. rewrite Hch in Hall. apply Forall_app in Hall as [_ Hall].
      apply Forall_cons in Hall as [Hall _]. unfold encodable in Hall. congruence.
Qed.

End Events.

Lemma chat_stream_ends_with_done_witness :
  (response_body format_example not_serializable "alice" "tenant-a" amb0 []
     broken_run (init 1800)).2.2 = None.
Proof.
  apply (proj1 (chat_stream_ends_with_done format_example not_serializable
                  "alice" "tenant-a" amb0 [] broken_run (init 1800))).
  intros e [= <-]. reflexivity.
Defined.

(** A tool result that [serialize_function_result] leaves unencodable ends
    the response: the text before it, one error event, [DONE]; the text
    after it is lost. *)
Lemma unencodable_result_ends_the_stream :
  (response_body format_example not_serializable "alice" "tenant-a" amb0 []
     fetch_run (init 1800)).2
  = ([ Data {| chunk_content := "Hel"; chunk_function_calls := [];
               chunk_finish_reason := None; chunk_role := "assistant" |};
       Data {| chunk_content := "Error: Object of type method is not JSON serializable";
               chunk_function_calls := [];
               chunk_finish_reason := Some "error"; chunk_role := "assistant" |};
       Done ], None).
Proof. vm_compute. reflexivity. Qed.

End AIServiceProofs.

(** ** The settings resolver, continued *)
Module SettingsMore.
Import PyExc PyVal Settings SettingsNotions SettingsMoreNotions SettingsProofs.

Lemma head_filter_spec {A} (f : A → bool) (l : list A) (x : A) :
  head (List.filter f l) = Some x → x ∈ l ∧ f x = true.
Proof.
  induction l as [|y l IH]; simpl; [done|].
  destruct (f y) eqn:E; simpl.
  - intros [= <-]. split; [apply list_elem_of_here | done].
  - intros H. destruct (IH H). split; [by apply list_elem_of_further | done].
Qed.

Lemma resolve_query_first_Some k org dom env aud rows h :
  head (take 1 (resolve_query k org dom env aud rows)) = Some h →
  h ∈ rows ∧ candidate k org dom env aud h = true
  ∧ ∀ c, c ∈ rows → candidate k org dom env aud c = true → precedes h c = true.
Proof.
  intros H. pose proof (resolve_query_first k org dom env aud rows) as Hq.
  by rewrite H in Hq.
Qed.

Lemma returned_setting_from_query
    (req : SettingsResolveRequest) (db : database) (fx : effects)
    (r : SettingsResolveResponse) :
  resolve_setting req db = (fx, Returned r) →
  ∃ org dom env aud row,
    row ∈ settings db
    ∧ candidate (req_key req) org dom env aud row = true
    ∧ (∀ c, c ∈ settings db → candidate (req_key req) org dom env aud c = true →
            precedes row c = true)
    ∧ r = {| resp_key := req_key req; resolved_payload := payload row;
             resolved_from := scope_desc row; resp_specificity := specificity row;
             found := true |}
    ∧ ((org = None ∧ dom = None ∧ env = None)
       ∨ ∃ u, u ∈ users db ∧ Some (user_oid u) = req_oid req
              ∧ org = user_organization_id u ∧ dom = user_domain_id u
              ∧ env = user_environment_id u)
    ∧ (aud = None
       ∨ ∃ a, a ∈ audiences db ∧ aud_code a = req_audience_key req
              ∧ aud_is_active a = true ∧ aud = Some (aud_id a)).
Proof.
  unfold resolve_setting.
  destruct (resolve_body req db {| logged := []; audited := [] |}) as [fx' [r'|e]] eqn:E;
    [|intros H; destruct (isinstance e Exception); simplify_eq].
  intros [= <- <-]. revert E.
  unfold resolve_body, bind, try_except, execute, ret, raise,
    construct, SettingsResolveResponse_init, log, create_audit_log.
  repeat (case_match; simplify_eq; try done); intros E;
    unfold ret, raise in E; simplify_eq;
    match goal with
    | H : head (take 1 (resolve_query _ ?o ?d ?e ?a _)) = Some ?s |- _ =>
        apply resolve_query_first_Some in H as (Hin & Hc & Hmax);
        exists o, d, e, a, s
    end;
    (split; [done|]); (split; [done|]); (split; [done|]); (split; [done|]).
  all: split;
    [ first [ by left
            | right;
              match goal with
              | H : head (List.filter _ (users _)) = Some ?u |- _ =>
                  apply head_filter_spec in H as [Hu Hf];
                  apply bool_decide_eq_true in Hf; exists u; by repeat split
              end ]
    | first [ by left
            | match goal with
              | |- context [head (List.filter ?f (audiences ?d))] =>
                  destruct (head (List.filter f (audiences d))) as [a|] eqn:Ha;
                  simpl; [|by left];
                  apply head_filter_spec in Ha as [Ha Hf];
                  apply andb_prop in Hf as [Hf1 Hf2];
                  apply bool_decide_eq_true in Hf1; right; exists a; by repeat split
              end ] ].
Qed.

Lemma candidate_eligible k org dom env aud r :
  candidate k org dom env aud r = true ↔ eligible k org dom env aud r.
Proof.
  assert (Hs : ∀ col caller, scope_matches col caller = true ↔ admits col caller).
  { intros [c|] caller; unfold admits; simpl; [|by split; [left|]].
    rewrite bool_decide_eq_true. split; [by right | by intros [|]]. }
  unfold candidate, eligible. rewrite !andb_true_iff, !Hs, bool_decide_eq_true,
    negb_true_iff. tauto.
Qed.

Lemma precedes_no_better r c : precedes r c = true ↔ no_better r c.
Proof.
  rewrite precedes_spec. unfold no_better. rewrite !specificity_weighted.
  split; (intros [H|[H1 H2]]; [by left | right; by split]).
Qed.

Lemma scope_desc_name r : scope_desc r = scope_name r.
Proof.
  unfold scope_desc, scope_name, set_dimensions.
  by destruct r as [? ? ? ? [o|] [d|] [e|] [a|] ? ?].
Qed.

(** X12.  A response of the handler is always taken from a row of the
    settings table that has the requested key, is active and not secret,
    and has each scope column unset or equal to the caller's coordinate;
    every other such row has a lower score, or the same score and no later
    update; the response carries the row's payload, the names of its set
    dimensions and its score; and the coordinates are those of a user
    record with the requested oid and of an active audience with the
    requested code, or unset. *)
Theorem returned_setting_is_best_candidate
    (req : SettingsResolveRequest) (db : database) (fx : effects)
    (r : SettingsResolveResponse) :
  resolve_setting req db = (fx, Returned r) →
  ∃ org dom env aud row,
    row ∈ settings db
    ∧ key row = req_key req ∧ is_active row = true ∧ is_secret row = false
    ∧ (organization_id row = None ∨ organization_id row = org)
    ∧ (domain_id row = None ∨ domain_id row = dom)
    ∧ (environment_id row = None ∨ environment_id row = env)
    ∧ (audience_id row = None ∨ audience_id row = aud)
    ∧ (∀ c, c ∈ settings db → eligible (req_key req) org dom env aud c →
            (weighted_score c < weighted_score row)%Z
            ∨ (weighted_score c = weighted_score row
               ∧ (updated_at c ≤ updated_at row)%Z))
    ∧ r = {| resp_key := req_key req; resolved_payload := payload row;
             resolved_from := scope_name row;
             resp_specificity := weighted_score row; found := true |}
    ∧ ((org = None ∧ dom = None ∧ env = None)
       ∨ ∃ u, u ∈ users db ∧ Some (user_oid u) = req_oid req
              ∧ org = user_organization_id u ∧ dom = user_domain_id u
              ∧ env = user_environment_id u)
    ∧ (aud = None
       ∨ ∃ a, a ∈ audiences db ∧ aud_code a = req_audience_key req
              ∧ aud_is_active a = true ∧ aud = Some (aud_id a)).
Proof.
  intros H.
  destruct (returned_setting_from_query req db fx r H)
    as (org & dom & env & aud & row & Hin & Hc & Hbest & Hr & Hu & Ha).
  exists org, dom, env, aud, row.
  apply candidate_eligible in Hc as (Hk & Hact & Hsec & Ho & Hd & He & Haud).
  repeat (split; [done|]). split.
  - intros c Hc Hel. apply candidate_eligible in Hel.
    by apply precedes_no_better, Hbest.
  - split; [|done]. by rewrite <- scope_desc_name, <- specificity_weighted.
Qed.

(** For ann the later of two rows of her organization is returned, and not
    a later one that is inactive. *)
Lemma returned_setting_is_best_candidate_witness :
  ∃ row, row ∈ [inactive_organization_row; organization_row; global_row;
                newer_organization_row]
         ∧ payload row = PStr "navy" ∧ is_active row = true
         ∧ (updated_at organization_row ≤ updated_at row)%Z.
Proof.
  destruct (returned_setting_is_best_candidate (theme_request (Some "oid-ann"))
              (tables [ann] [] [inactive_organization_row; organization_row;
                                global_row; newer_organization_row])
              {| logged := [];
                 audited := [ {| audit_action := "resolve";
                                 audit_resource := "settings_v4";
                                 audit_resource_id := "s-5";
                                 audit_details := "Resolved setting 'theme' from Organization" |} ] |}
              {| resp_key := "theme"; resolved_payload := PStr "navy";
                 resolved_from := "Organization"; resp_specificity := 2;
                 found := true |} eq_refl)
    as (org & dom & env & aud & row & Hin & _ & Hact & _ & _ & _ & _ & _ & _ & Hr & _).
  exists row. split; [exact Hin|]. split; [|split; [exact Hact|]].
  - injection Hr as Hp _ _. symmetry. exact Hp.
  - injection Hr as Hp _ _.
    assert (Hrow : row = newer_organization_row).
    { apply list_elem_of_In in Hin. simpl in Hin.
      destruct Hin as [<-|[<-|[<-|[<-|[]]]]]; try discriminate Hp; try discriminate Hact.
      reflexivity. }
    rewrite Hrow. vm_compute. discriminate.
Defined.

Lemma resolve_body_frame req db fx :
  resolve_body req db fx
  = ({| logged := (logged fx
                   ++ logged (resolve_body req db {| logged := []; audited := [] |}).1)%list;
        audited := (audited fx
                    ++ audited (resolve_body req db {| logged := []; audited := [] |}).1)%list |},
     (resolve_body req db {| logged := []; audited := [] |}).2).
Proof.
  destruct fx as [l a].
  unfold resolve_body, bind, try_except, execute, ret, raise,
    construct, SettingsResolveResponse_init, log, create_audit_log.
  repeat (case_match; simplify_eq; try done); simpl;
    unfold ret, raise in *; simplify_eq; simpl;
    rewrite ?app_nil_r, <- ?app_assoc; try done.
Qed.

(** X14.  When the user lookup fails with an [Exception], the handler
    answers as it does for a caller without user record: the reply, the
    audit entries and the rest of the log are those of the same request
    on the same tables with no user row, and the only trace of the
    failure is one warning at the head of the log. *)
Theorem user_lookup_failure_only_warns req db e :
  truthy (req_oid req) = true →
  user_query_error db = Some e →
  isinstance e Exception = true →
  let warning := (WARNING, "Error fetching user metadata for oid '"
                           ++ str_opt (req_oid req) ++ "': " ++ exc_str e) in
  let unscoped := resolve_setting req (without_user_table db) in
  resolve_setting req db
  = ({| logged := warning :: logged unscoped.1; audited := audited unscoped.1 |},
     unscoped.2).
Proof.
  intros Ht Hq He warning unscoped. unfold unscoped, resolve_setting.
  rewrite (user_lookup_failure_is_tolerated req db e _ Ht Hq He).
  rewrite resolve_body_frame. simpl.
  destruct (resolve_body req (without_user_table db) _) as [fx' [r|e']]; simpl; [done|].
  destruct (isinstance e' Exception); simpl; done.
Qed.

Lemma user_lookup_failure_only_warns_witness :
  (resolve_setting (theme_request (Some "oid-ann")) user_query_down).2
  = (resolve_setting (theme_request (Some "oid-ann"))
       (without_user_table user_query_down)).2.
Proof.
  rewrite (user_lookup_failure_only_warns (theme_request (Some "oid-ann"))
             user_query_down (Exn ConnectionResetError "connection reset by peer")
             eq_refl eq_refl eq_refl).
  reflexivity.
Defined.

(** X13.  The score lies between 0 and 16, it is 0 exactly for a global row,
    which is what [resolved_from] then says, and a row scoped to an
    audience comes before every row that is not, whatever else the two
    rows set. *)
Theorem audience_outranks_everything (a b : SettingsV4) :
  (0 ≤ specificity a ≤ 16)%Z
  ∧ (specificity a = 0%Z ↔ is_global a)
  ∧ (scope_desc a = "Global" ↔ is_global a)
  ∧ (is_Some (audience_id a) → audience_id b = None →
     precedes a b = true ∧ precedes b a = false).
Proof.
  unfold specificity, is_global, scope_desc, precedes, specificity.
  destruct a as [? ? ? ? [oa|] [da|] [ea|] [aa|] ? ta],
           b as [? ? ? ? [ob|] [db|] [eb|] [ab|] ? tb]; simpl;
    (split; [lia|]);
    (split; [split; [intros; try lia; done | intros (?&?&?&?); by simplify_eq]|]);
    (split; [split; [intros; try done | intros (?&?&?&?); by simplify_eq]|]);
    intros [x Hx] Hb; simplify_eq; done.
Qed.

Lemma audience_outranks_everything_witness :
  precedes (row "s-7" "theme" (PStr "blue") false None None None (Some "aud-1") 0)
           (row "s-8" "theme" (PStr "red") false (Some "o") (Some "d") (Some "e") None 99)
  = true.
Proof.
  apply (audience_outranks_everything
           (row "s-7" "theme" (PStr "blue") false None None None (Some "aud-1") 0)
           (row "s-8" "theme" (PStr "red") false (Some "o") (Some "d") (Some "e") None 99)).
  - by eexists.
  - reflexivity.
Defined.

End SettingsMore.

(** ** Administration of settings *)
Module SettingsAdminProofs.
Import PyExc PyVal Settings SettingsNotions SettingsAdmin SettingsAdminNotions.

Lemma head_filter_None {A} (f : A → bool) (l : list A) :
  head (List.filter f l) = None → ∀ x, x ∈ l → f x = false.
Proof.
  induction l as [|y l IH]; simpl; [intros _ x []%elem_of_nil|].
  destruct (f y) eqn:E; simpl; [done|].
  intros H x [->|Hx]%elem_of_cons; [done | by apply IH].
Qed.

Lemma same_scope_tuple k org dom env aud r :
  same_scope k org dom env aud r = true ↔ scope_tuple r = (k, org, dom, env, aud).
Proof.
  unfold same_scope, scope_tuple. rewrite !andb_true_iff, !bool_decide_eq_true.
  split; [intros [[[[-> ->] ->] ->] ->]; done | intros [= -> -> -> -> ->]; done].
Qed.

(** X15.  [create_setting] and [delete_setting] keep keys unique per
    scope.  When the scope ids parse and the existence query succeeds,
    [create_setting] answers 400 exactly when a row of the same key and
    scope exists, an empty id meaning unscoped, and leaves the table as it
    is; a created row is the one row added, with the requested key, scope
    and payload. *)
Theorem create_and_delete_keep_scopes_unique (parse_uuid : string → option string)
    (n : SettingsV4Create) (new_id setting_id : string) (now : Z)
    (err : session_errors) (rows : list SettingsV4) :
  unique_scopes rows →
  unique_scopes (create_setting parse_uuid n new_id now err rows).1
  ∧ unique_scopes (delete_setting parse_uuid setting_id err rows).1
  ∧ (∀ org dom env aud,
       scope_values parse_uuid n = inl (org, dom, env, aud) → query_error err = None →
       ((∃ r, r ∈ rows ∧ scope_tuple r = (new_key n, org, dom, env, aud))
        ↔ create_setting parse_uuid n new_id now err rows
          = (rows, Failed 400 "Setting key already exists in this scope"))
       ∧ (∀ rows' row, create_setting parse_uuid n new_id now err rows
                       = (rows', Created row) →
            rows' = (rows ++ [row])%list
            ∧ scope_tuple row = (new_key n, org, dom, env, aud)
            ∧ payload row = new_payload n)).
Proof.
  intros Hu.
  assert (Hneq : ∀ d e, http_500 d e ≠ Failed 400 "Setting key already exists in this scope").
  { intros d e. unfold http_500. by destruct (isinstance e Exception). }
  assert (Hnc : ∀ d e row, http_500 d e ≠ Created row).
  { intros d e row. unfold http_500. by destruct (isinstance e Exception). }
  split; [|split].
  - unfold create_setting.
    destruct (scope_values parse_uuid n) as [[[[org dom] env] aud]|e]; [|done].
    destruct (query_error err); [done|].
    destruct (head (List.filter _ rows)) eqn:Hh; [done|].
    destruct (commit_error err); [done|].
    assert (Hadd : unique_scopes
              (rows ++ [ {| id := new_id; key := new_key n; payload := new_payload n;
                            is_secret := new_is_secret n;
                            organization_id := org; domain_id := dom;
                            environment_id := env; audience_id := aud;
                            is_active := new_is_active n; updated_at := now |} ])%list).
    { unfold unique_scopes. rewrite fmap_app. simpl.
      apply NoDup_app. split; [done|]. split; [|apply NoDup_singleton].
      intros t Ht Ht'. apply list_elem_of_singleton in Ht'. subst t.
      apply list_elem_of_fmap in Ht as (r & Hr & Hin).
      pose proof (head_filter_None _ _ Hh r Hin) as Hf.
      assert (same_scope (new_key n) org dom env aud r = true); [|congruence].
      apply same_scope_tuple. by rewrite <- Hr. }
    by destruct (refresh_error err).
  - unfold delete_setting. destruct (parse_uuid setting_id); [|done].
    destruct (query_error err); [done|]. destruct (head (List.filter _ rows)); [|done].
    destruct (commit_error err); [done|]. simpl. unfold unique_scopes in *.
    clear -Hu. induction rows as [|r rows IH]; simpl; [done|].
    apply NoDup_cons in Hu as [Hr Hu]. destruct (negb _); simpl; [|by apply IH].
    apply NoDup_cons. split; [|by apply IH].
    intros (r' & Hr' & Hin)%list_elem_of_fmap. apply Hr.
    apply list_elem_of_fmap. exists r'. split; [done|].
    apply list_elem_of_In, filter_In in Hin as [Hin _]. by apply list_elem_of_In.
  - intros org dom env aud Hs Hq. unfold create_setting. rewrite Hs, Hq. split.
    + split.
      * intros (r & Hin & Hr).
        destruct (head (List.filter _ rows)) eqn:Hh; [done|].
        pose proof (head_filter_None _ _ Hh r Hin) as Hf.
        apply same_scope_tuple in Hr. congruence.
      * destruct (head (List.filter _ rows)) as [r|] eqn:Hh.
        -- intros _. exists r.
           assert (Hin : In r (List.filter (same_scope (new_key n) org dom env aud) rows)).
           { destruct (List.filter _ rows); simpl in Hh; [done|].
             injection Hh as ->. by left. }
           apply filter_In in Hin as [Hin Hf]. split; [by apply list_elem_of_In|].
           by apply same_scope_tuple.
        -- intros H. apply (f_equal snd) in H. simpl in H.
           destruct (commit_error err) as [e|]; [by apply Hneq in H|].
           destruct (refresh_error err) as [e|]; [by apply Hneq in H | done].
    + intros rows' row. destruct (head (List.filter _ rows)); [done|].
      destruct (commit_error err) as [e|];
        [intros H; apply (f_equal snd) in H; by apply Hnc in H|].
      destruct (refresh_error err) as [e|];
        [intros H; apply (f_equal snd) in H; by apply Hnc in H|].
      by intros [= <- <-].
Qed.

Lemma create_and_delete_keep_scopes_unique_witness :
  unique_scopes (create_setting parse_example dark_for_org_2 "s-9" 50 no_errors
                   [global_row; environment_row; organization_row]).1.
Proof.
  apply (create_and_delete_keep_scopes_unique parse_example dark_for_org_2 "s-9" "s-1" 50
           no_errors [global_row; environment_row; organization_row]).
  unfold unique_scopes. simpl.
  repeat (apply NoDup_cons_2; [vm_compute; intros H; repeat (inversion_clear H as [|? ? ? H']; try rename H' into H) |]).
  apply NoDup_nil_2.
Defined.

(** A second request for the same key and scope is answered with 400, and
    an empty domain id is stored as no domain. *)
Lemma create_twice_example :
  let first := create_setting parse_example dark_for_org_2 "s-9" 50 no_errors
                 [global_row] in
  first.2 = Created (row "s-9" "theme" (PStr "dark") false (Some "org-2") None None None 50)
  ∧ (create_setting parse_example dark_for_org_2 "s-10" 60 no_errors first.1).2
    = Failed 400 "Setting key already exists in this scope".
Proof. vm_compute. split; reflexivity. Qed.

End SettingsAdminProofs.

(** ** Monitoring *)
Module MonitoringProofs.
Import PyExc KernelManager PoolNotions PoolProofs Monitoring MonitoringNotions.

Lemma over_tenants_insert field m t x :
  m !! t = None → over_tenants field (<[t := x]> m) = (field x + over_tenants field m)%Z.
Proof.
  intros Hm. unfold over_tenants.
  rewrite (map_fold_insert_L (λ _ stats acc, (field stats + acc)%Z)); [done| |done].
  intros. lia.
Qed.

Lemma over_tenants_update field m t x y :
  m !! t = Some y →
  over_tenants field (<[t := x]> m) = (field x - field y + over_tenants field m)%Z.
Proof.
  intros Hm. rewrite <- (insert_delete_eq m t x).
  rewrite <- (insert_delete_id m t y Hm) at 2.
  rewrite !over_tenants_insert by apply lookup_delete_eq. lia.
Qed.

Lemma aggregate_lookup m k t :
  aggregate m k !! t
  = if decide (tenant_id k = t) then
      Some {| count := default 0%Z (count <$> m !! t) + 1;
              total_access_count := default 0%Z (total_access_count <$> m !! t)
                                    + access_count k |}
    else m !! t.
Proof.
  unfold aggregate. case_decide as Ht.
  - subst t. destruct (m !! tenant_id k) as [st|] eqn:E.
    + by rewrite lookup_alter_eq, E.
    + by rewrite lookup_alter_eq, lookup_insert_eq.
  - rewrite lookup_alter_ne by done. destruct (m !! tenant_id k); [done|].
    by rewrite lookup_insert_ne.
Qed.

Lemma aggregate_insert m k :
  aggregate m k
  = <[tenant_id k := {| count := default 0%Z (count <$> m !! tenant_id k) + 1;
                        total_access_count :=
                          default 0%Z (total_access_count <$> m !! tenant_id k)
                          + access_count k |}]> m.
Proof.
  apply map_eq. intros t. rewrite aggregate_lookup. case_decide as Ht.
  - subst. by rewrite lookup_insert_eq.
  - by rewrite lookup_insert_ne.
Qed.

Lemma over_tenants_aggregate m k :
  over_tenants count (aggregate m k) = (over_tenants count m + 1)%Z
  ∧ over_tenants total_access_count (aggregate m k)
    = (over_tenants total_access_count m + access_count k)%Z.
Proof.
  rewrite aggregate_insert. destruct (m !! tenant_id k) as [st|] eqn:E; simpl.
  - rewrite !(over_tenants_update _ _ _ _ st E). simpl. lia.
  - rewrite !over_tenants_insert by done. simpl. lia.
Qed.

Lemma foldl_aggregate_sums ks m :
  over_tenants count (foldl aggregate m ks)
  = (over_tenants count m + Z.of_nat (List.length ks))%Z
  ∧ over_tenants total_access_count (foldl aggregate m ks)
    = (over_tenants total_access_count m + accesses ks)%Z.
Proof.
  revert m. induction ks as [|k ks IH]; intros m; simpl; [lia|].
  destruct (IH (aggregate m k)) as [-> ->].
  destruct (over_tenants_aggregate m k) as [-> ->].
  change (accesses (k :: ks)) with (access_count k + accesses ks)%Z. lia.
Qed.

Lemma foldl_aggregate_lookup ks m t :
  foldl aggregate m ks !! t
  = match of_tenant t ks with
    | [] => m !! t
    | _ => Some {| count := default 0%Z (count <$> m !! t)
                            + Z.of_nat (List.length (of_tenant t ks));
                   total_access_count :=
                     default 0%Z (total_access_count <$> m !! t)
                     + accesses (of_tenant t ks) |}
    end.
Proof.
  revert m. induction ks as [|k ks IH]; intros m; [done|].
  cbn [foldl]. rewrite IH, aggregate_lookup. unfold of_tenant. cbn [List.filter].
  case_bool_decide as Ht.
  - rewrite decide_True by done. simpl.
    fold (of_tenant t ks). destruct (of_tenant t ks) as [|k' ks'] eqn:E.
    + simpl. f_equal. f_equal; lia.
    + f_equal. change (accesses (k :: k' :: ks')) with
        (access_count k + accesses (k' :: ks'))%Z.
      change (List.length (k :: k' :: ks')) with (S (List.length (k' :: ks'))).
      f_equal; lia.
  - rewrite decide_False by done. done.
Qed.

Lemma length_values s :
  pool_inv s → List.length (values s) = size (kernels s).
Proof.
  intros [Hk _]. unfold values. rewrite <- length_map_to_list.
  assert (H : ∀ e, e ∈ map_to_list (kernels s) → is_Some (objs s !! e.2)).
  { intros [k r] Hin%elem_of_map_to_list. apply Hk in Hin. unfold owners in Hin.
    simpl. destruct (objs s !! r); [by eexists | done]. }
  induction (map_to_list (kernels s)) as [|e l IH]; [done|].
  cbn [omap list_omap]. destruct (H e) as [o ->]; [apply list_elem_of_here|].
  simpl. f_equal. apply IH. intros e' He'. apply H. by apply list_elem_of_further.
Qed.

(** X16.  The tenants of [get_metrics] partition the pool: the counts of the
    tenants add up to [total_kernels] and their access counts to the
    accesses of all pooled sessions; a tenant has an entry exactly when a
    pooled session is of that tenant, and its entry counts those sessions
    and their accesses. *)
Theorem tenant_stats_partition (T : Z) (ops : list op) :
  let s := run ops (init T) in
  over_tenants count (tenant_stats s) = total_kernels s
  ∧ over_tenants total_access_count (tenant_stats s) = accesses (values s)
  ∧ (∀ t, tenant_stats s !! t = None ↔ of_tenant t (values s) = [])
  ∧ (∀ t stats, tenant_stats s !! t = Some stats →
       count stats = Z.of_nat (List.length (of_tenant t (values s)))
       ∧ (0 < count stats)%Z
       ∧ total_access_count stats = accesses (of_tenant t (values s))).
Proof.
  intros s. unfold tenant_stats, total_kernels.
  destruct (foldl_aggregate_sums (values s) ∅) as [Hc Ha].
  rewrite Hc, Ha.
  assert (He : ∀ field, over_tenants field ∅ = 0%Z).
  { intros field. unfold over_tenants. apply map_fold_empty. }
  rewrite !He.
  rewrite length_values by apply reachable_inv.
  split; [lia|]. split; [lia|]. split.
  - intros t. rewrite foldl_aggregate_lookup, lookup_empty.
    by destruct (of_tenant t (values s)).
  - intros t stats. rewrite foldl_aggregate_lookup, lookup_empty.
    destruct (of_tenant t (values s)) as [|k ks] eqn:E; [done|].
    intros [= <-]. simpl. repeat split; lia.
Qed.

Lemma tenant_stats_partition_witness :
  count {| count := 1; total_access_count := 1 |}
  = Z.of_nat (List.length (of_tenant "tenant-a" (values one_session))).
Proof.
  apply (proj1 (proj2 (proj2 (proj2 (tenant_stats_partition 1800
           [Acquire " alice" "tenant-a" amb0]))) "tenant-a"
           {| count := 1; total_access_count := 1 |} eq_refl)).
Defined.

End MonitoringProofs.

(** ** Sanitising of user messages *)
Module SanitizerProofs.
Import Sanitizer SanitizerNotions.

Section Sub.
Variable decimal : N → bool.
Hypothesis hyphen_is_no_digit : decimal hyphen = false.
Hypothesis minus_is_no_digit : decimal 12510%N = false.

Lemma digits_app s : ((digits decimal s).1 ++ (digits decimal s).2)%list = s.
Proof.
  induction s as [|c s IH]; [done|]. simpl.
  destruct (decimal c); [|done]. destruct (digits decimal s). simpl in *. by f_equal.
Qed.

Lemma digits_length s :
  (List.length (digits decimal s).2 ≤ List.length s)%nat.
Proof.
  rewrite <- (digits_app s) at 2. rewrite length_app. lia.
Qed.

Lemma digits_nil s :
  (digits decimal s).1 = [] ↔ match s with d :: _ => decimal d = false | [] => True end.
Proof.
  destruct s as [|c s]; [done|]. simpl.
  destruct (decimal c); [|done]. destruct (digits decimal s). simpl. split; done.
Qed.

Lemma replace_digits s :
  replace decimal s = ((digits decimal s).1 ++ replace decimal (digits decimal s).2)%list.
Proof.
  induction s as [|c s IH]; [done|]. cbn [digits].
  destruct (decimal c) eqn:Hc; [|done].
  destruct (digits decimal s) as [ds rest'] eqn:E. simpl in IH. cbn [fst snd].
  cbn [replace].
  assert ((c =? hyphen)%N = false) as ->.
  { apply N.eqb_neq. intros ->. congruence. }
  simpl. by rewrite IH.
Qed.

Lemma sub_replace fuel s :
  (List.length s ≤ fuel)%nat → sub decimal fuel s = replace decimal s.
Proof.
  revert s. induction fuel as [|fuel IH]; intros s Hs.
  - destruct s; [done | simpl in Hs; lia].
  - destruct s as [|c rest]; [done|]. cbn [sub replace]. simpl in Hs.
    destruct (c =? hyphen)%N eqn:Hc; simpl; [|by rewrite IH by lia].
    pose proof (digits_nil rest) as Hn. pose proof (digits_length rest) as Hl.
    pose proof (replace_digits rest) as Hr.
    destruct (digits decimal rest) as [[|d ds] rest'] eqn:E; simpl in *.
    + destruct rest as [|d rest]; [by rewrite IH by (simpl; lia)|].
      rewrite (proj1 Hn eq_refl). by rewrite IH by lia.
    + destruct rest as [|d' rest]; [done|].
      destruct (decimal d') eqn:Hd; [|by destruct Hn as [_ Hn]; specialize (Hn eq_refl)].
      rewrite Hr, IH by lia. done.
Qed.

Lemma sanitize_replace s : _sanitize_message_content decimal s = replace decimal s.
Proof. by apply sub_replace. Qed.

Lemma replace_head s :
  match replace decimal s with d :: _ => decimal d | [] => false end
  = match s with d :: _ => decimal d | [] => false end.
Proof.
  destruct s as [|c rest]; [done|]. cbn [replace].
  destruct ((c =? hyphen)%N && _) eqn:E; [|done].
  apply andb_prop in E as [Hc%N.eqb_eq _]. subst c. simpl.
  by rewrite minus_is_no_digit, hyphen_is_no_digit.
Qed.

Lemma replace_clean s : negative_number decimal (replace decimal s) = false.
Proof.
  induction s as [|c rest IH]; [done|]. cbn [replace].
  destruct ((c =? hyphen)%N && _) eqn:E.
  - simpl. by rewrite IH.
  - cbn [negative_number]. rewrite IH, replace_head, E. done.
Qed.

Lemma replace_id s : negative_number decimal s = false → replace decimal s = s.
Proof.
  induction s as [|c rest IH]; [done|]. cbn [negative_number replace].
  intros [-> H]%orb_false_elim. by rewrite IH.
Qed.

Lemma replace_length s :
  List.length (replace decimal s) = (List.length s + 3 * negative_numbers decimal s)%nat.
Proof.
  induction s as [|c rest IH]; [done|]. cbn [negative_numbers replace].
  destruct ((c =? hyphen)%N && _).
  - rewrite length_app, IH. simpl. lia.
  - simpl. rewrite IH. lia.
Qed.

(** X17.  The sanitised text has no hyphen directly before a digit; sanitising
    is idempotent and leaves a text without such a hyphen as it is; and
    every replaced hyphen makes the text three characters longer. *)
Theorem sanitize_removes_negative_numbers (s : text) :
  negative_number decimal (_sanitize_message_content decimal s) = false
  ∧ _sanitize_message_content decimal (_sanitize_message_content decimal s)
    = _sanitize_message_content decimal s
  ∧ (negative_number decimal s = false → _sanitize_message_content decimal s = s)
  ∧ List.length (_sanitize_message_content decimal s)
    = (List.length s + 3 * negative_numbers decimal s)%nat.
Proof.
  rewrite !sanitize_replace. split; [apply replace_clean|].
  split; [apply replace_id, replace_clean|].
  split; [apply replace_id | apply replace_length].
Qed.

End Sub.

Lemma sanitize_removes_negative_numbers_witness :
  negative_number ascii_digit (_sanitize_message_content ascii_digit pay) = false.
Proof.
  apply (sanitize_removes_negative_numbers ascii_digit eq_refl eq_refl pay).
Defined.

(** [Pay -100 or 7-5] becomes [Pay マイナス100 or 7マイナス5]. *)
Lemma sanitize_example :
  _sanitize_message_content ascii_digit pay
  = [80; 97; 121; 32; 12510; 12452; 12490; 12473; 49; 48; 48; 32; 111; 114; 32;
     55; 12510; 12452; 12490; 12473; 53]%N.
Proof. vm_compute. reflexivity. Qed.

End SanitizerProofs.

(** ** Principals *)
Module CommonProofs.
Import PyExc Settings KernelManager PoolNotions PoolProofs Common CommonNotions.

(** X18.  For a dict principal [extract_user_info] never fails and never
    returns an empty tenant id; its user id is the first non-empty of
    [user_id], [id] and, whatever it holds, [oid]; a dict without any of
    the three gets the user id [None], so that all such principals are
    served by one pooled session.  An object of another type is refused
    with a [ValueError]. *)
Theorem dict_principal_ids (d : gmap string (option string)) :
  ∃ u t, extract_user_info (UserDict d) = inl (u, t)
    ∧ t ≠ ""
    ∧ (truthy (get d "user_id") = true → u = str_opt (get d "user_id"))
    ∧ (truthy (get d "user_id") = false → truthy (get d "id") = true →
       u = str_opt (get d "id"))
    ∧ (truthy (get d "user_id") = false → truthy (get d "id") = false →
       u = str_opt (get d "oid"))
    ∧ (no_user_id d →
       u = "None"
       ∧ ∀ d' tid tid' amb amb' T ops, no_user_id d' →
           ∃ t', extract_user_info (UserDict d') = inl (u, t')
             ∧ let e := get_kernel_enter u tid amb (run ops (init T)) in
               (get_kernel_enter u tid' amb' e.1).2 = e.2).
Proof.
  assert (Ht : ∀ x : option string, truthy x = true → str_opt x ≠ "").
  { intros [x|]; simpl; [|done]. by case_bool_decide. }
  assert (Hu : ∀ d', no_user_id d' →
            ∃ t', extract_user_info (UserDict d') = inl ("None", t')).
  { intros d' (H1 & H2 & H3). unfold extract_user_info. rewrite H1, H2. simpl.
    rewrite H3. by eexists. }
  unfold extract_user_info. eexists _, _. split; [done|]. split; [|split; [|split; [|split]]].
  - destruct (truthy (get d "tenant_id")) eqn:E1; simpl.
    + rewrite E1. simpl. by apply Ht.
    + destruct (truthy (get d "tid")) eqn:E2; simpl; [by apply Ht | done].
  - intros H. rewrite H. simpl. by rewrite H.
  - intros H1 H2. rewrite H1. simpl. by rewrite H2.
  - intros H1 H2. rewrite H1. simpl. by rewrite H2.
  - intros (H1 & H2 & H3). rewrite H1. simpl. rewrite H2. simpl. rewrite H3.
    split; [done|].
    intros d' tid tid' amb amb' T ops Hd'. destruct (Hu d' Hd') as [t' Ht'].
    exists t'. split; [done|]. cbv zeta.
    destruct (get_kernel_enter_spec "None" tid amb (run ops (init T)))
      as (Hinv & _ & Hk & _); [apply reachable_inv|].
    destruct (get_kernel_enter_spec "None" tid' amb'
                (get_kernel_enter "None" tid amb (run ops (init T))).1 Hinv)
      as (_ & _ & _ & _ & Hsame).
    rewrite Hk in Hsame. by destruct Hsame.
Qed.

Lemma dict_principal_ids_witness :
  ∃ t', extract_user_info (UserDict name_only) = inl ("None", t')
    ∧ (get_kernel_enter "None" "default" amb1
         (get_kernel_enter "None" "tenant-b" amb0 (init 1800)).1).2 = 0%nat.
Proof.
  destruct (dict_principal_ids token_payload) as (u & t & He & _ & _ & _ & _ & Hn).
  destruct Hn as [-> Hs]; [by repeat split|].
  destruct (Hs name_only "tenant-b" "default" amb0 amb1 1800%Z []) as (t' & Ht' & Hk);
    [by repeat split|].
  exists t'. split; [exact Ht' | exact Hk].
Defined.

(** The examples: a token payload without object id, and an unsupported
    principal. *)
Lemma extract_user_info_examples :
  extract_user_info (UserDict token_payload) = inl ("None", "tenant-b")
  ∧ extract_user_info (OtherObject "int")
    = inr (Exn ValueError "Unsupported current_user type: <class 'int'>").
Proof. split; vm_compute; reflexivity. Qed.

End CommonProofs.

(** ** The plugin manager *)
Module PluginProofs.
Import PyExc PluginManager PluginNotions.

Lemma logged_spec r :
  (logged r).1 = r.1
  ∧ ∀ e, (logged r).2 = Some e → r.2 = Some e ∧ isinstance e Exception = false.
Proof.
  destruct r as [s [e|]]; simpl; [|by split].
  destruct (isinstance e Exception) eqn:E; simpl; split; try done.
  by intros e' [= <-].
Qed.

Lemma core_inv w s :
  plugin_inv s →
  plugin_inv (_initialize_core_plugins w s).1
  ∧ mcp_plugins (_initialize_core_plugins w s).1 = mcp_plugins s
  ∧ _initialized (_initialize_core_plugins w s).1 = _initialized s.
Proof.
  intros [[Hc Hm] Hi]. unfold _initialize_core_plugins.
  rewrite (proj1 (logged_spec _)).
  assert (Hset : ∀ k p s', (k, p) ∈ [("Math", MathPlugin); ("Time", TimePlugin); ("Http", HttpPlugin)] →
            plugin_inv s' → plugin_inv (set_core k p s')).
  { intros k p s' Hin [[Hc' Hm'] Hi']. split; [split|]; simpl; try done.
    intros k' p'. rewrite lookup_insert. case_decide; [|by apply Hc'].
    intros [= <-]. by subst. }
  assert (H0 : plugin_inv s) by done.
  destruct (math_error w); [done|]. destruct (time_error w); simpl.
  { split; [|done]. apply Hset; [|done]. set_solver. }
  destruct (http_error w); simpl.
  { split; [|done]. apply Hset; [set_solver|]. apply Hset; [set_solver|done]. }
  split; [|done]. apply Hset; [set_solver|].
  apply Hset; [set_solver|]. apply Hset; [set_solver|done].
Qed.

Lemma initialize_inv w s : plugin_inv s → plugin_inv (initialize w s).1.
Proof.
  intros Hs. unfold initialize. destruct (_initialized s) eqn:Hi; [done|].
  destruct (core_inv w s Hs) as (Hc & Hcm & Hci).
  destruct (_initialize_core_plugins w s) as [s1 [e|]]; [done|]. simpl in *.
  unfold _initialize_mcp_plugins.
  destruct (mcp_error w) as [e|]; simpl.
  { destruct (isinstance e Exception); simpl; [|done].
    destruct Hc as [Hk Hm]. split; [done|]. simpl. intros _. apply Hm. congruence. }
  destruct (connect_error w) as [e|]; simpl.
  { destruct (isinstance e Exception); simpl; [|done].
    destruct Hc as [Hk Hm]. split; [done|]. simpl. intros _. apply Hm. congruence. }
  destruct Hc as [[Hk1 Hk2] Hm]. split; [split|]; simpl; try done.
  intros k p. rewrite lookup_insert. case_decide; [|by apply Hk2]. by intros [= <-].
Qed.

Lemma cleanup_inv ce s : plugin_inv s → plugin_inv (cleanup ce s).1.1.
Proof.
  intros Hs. unfold cleanup. destruct (close_all ce _) as [closed [e|]]; [done|].
  destruct Hs as [[Hk1 Hk2] Hm]. split; [split|]; simpl; try done.
Qed.

Lemma run_plugin_inv ops s : plugin_inv s → plugin_inv (run ops s).
Proof.
  unfold run. revert s. induction ops as [|o ops IH]; intros s Hs; [done|].
  simpl. apply IH. destruct o; simpl; [by apply initialize_inv | by apply cleanup_inv].
Qed.

(** X19.  Through every sequence of [initialize] and [cleanup] calls the manager
    holds only its three core plugins and the one MCP plugin, and no MCP
    plugin unless it is initialized.  An [initialize] that returns marks
    the manager initialized whatever failed with an [Exception], so that a
    failed connection is not tried again: every later [initialize]
    changes nothing, until a [cleanup], which empties the MCP plugins,
    keeps the core plugins and clears the mark. *)
Theorem plugin_lifecycle (ops : list op) :
  let s := run ops init in
  plugin_inv s
  ∧ (∀ w, (initialize w s).2 = None →
       _initialized (initialize w s).1 = true
       ∧ (∀ w', initialize w' (initialize w s).1 = ((initialize w s).1, None))
       ∧ (∀ e, _initialized s = false → connect_error w = Some e →
               mcp_plugins (initialize w s).1 = ∅))
  ∧ (∀ ce, (cleanup ce s).2 = None →
       mcp_plugins (cleanup ce s).1.1 = ∅
       ∧ _initialized (cleanup ce s).1.1 = false
       ∧ core_plugins (cleanup ce s).1.1 = core_plugins s).
Proof.
  intros s. assert (Hinv : plugin_inv s).
  { apply run_plugin_inv. split; [split|]; simpl; try done;
      intros k p; by rewrite lookup_empty. }
  split; [done|]. split.
  - intros w Hret.
    assert (Hflag : _initialized (initialize w s).1 = true).
    { revert Hret. unfold initialize. destruct (_initialized s) eqn:Hi; [done|].
      destruct (_initialize_core_plugins w s) as [s1 [e|]]; [done|].
      by destruct (_initialize_mcp_plugins w s1) as [s2 [e|]]. }
    split; [done|]. split.
    + intros w'. unfold initialize at 1. by rewrite Hflag.
    + intros e Hi He. revert Hret. unfold initialize. rewrite Hi.
      destruct (core_inv w s Hinv) as (_ & Hcm & _).
      destruct (_initialize_core_plugins w s) as [s1 [e1|]]; [done|]. simpl in Hcm.
      unfold _initialize_mcp_plugins. rewrite He.
      destruct (mcp_error w) as [e2|]; simpl.
      * destruct (isinstance e2 Exception); simpl; [|done]. intros _.
        rewrite Hcm. by apply Hinv.
      * destruct (isinstance e Exception); simpl; [|done]. intros _.
        rewrite Hcm. by apply Hinv.
  - intros ce. unfold cleanup. by destruct (close_all ce _) as [closed [e|]].
Qed.

Lemma plugin_lifecycle_witness :
  mcp_plugins (initialize npx_missing init).1 = ∅
  ∧ initialize all_fine (initialize npx_missing init).1
    = ((initialize npx_missing init).1, None).
Proof.
  destruct (proj1 (proj2 (plugin_lifecycle [])) npx_missing eq_refl) as (_ & H2 & H3).
  split; [apply (H3 (Exn OSError "No such file or directory: 'npx'")); reflexivity|].
  apply H2.
Defined.

End PluginProofs.
